(** * avx512counters: the fixture scanner, the operand patterns and the
      collector's driver steps, embedded from [avx512counters.go].

    Go strings are byte sequences; they are modelled as [list ascii].
    Pointer-receiver methods become functions that return the updated
    struct.  A run-time panic (index out of range, nil dereference) is an
    explicit outcome. *)

From Stdlib Require Import Ascii String List NArith Lia Bool.
From Stdlib Require Import DecimalString DecimalN.
From stdpp Require Import base option list gmap strings.

Set Default Proof Using "All".
Local Open Scope char_scope.
Local Open Scope list_scope.

(** ** Go strings *)

Abbreviation gostring := (list ascii).

Definition str (s : string) : gostring := list_ascii_of_string s.

Definition tab : ascii := "009".
Definition newline : ascii := "010".
Definition space : ascii := " ".

(** Result of a call that may panic. *)
Inductive outcome (A : Type) : Type :=
| Ok (a : A)
| Panic.
Arguments Ok {A} a.
Arguments Panic {A}.

(** ** The regular expressions of the program

    The three patterns compiled by the program ([memArgRE], [vmemArgRE],
    [lineRE]) use literals, character classes, concatenation, the greedy
    optional group, repetition ([*], [+], lazy [*?]) of a single character
    class, and capturing groups.  The syntax below covers exactly that
    fragment of Go's [regexp] syntax.

    Go matches UTF-8 runes, the model matches bytes.  For these patterns
    the two agree: [\d], [\w] and the bracketed classes hold ASCII bytes
    only, and the dot is always followed by an ASCII literal (a space),
    which never lies inside a multi-byte rune, so a run of runes other
    than newline and a run of bytes other than newline end at the same
    places. *)

Inductive cclass : Type :=
| CAnyNotNL                              (* .  : any byte but newline *)
| CDigit                                 (* \d : [0-9] *)
| CWord                                  (* \w : [0-9A-Za-z_] *)
| COneOf (cs : list ascii)               (* [1248], [XYZ] *)
| CRanges (rs : list (ascii * ascii)).   (* [0-9a-f] *)

Definition between (lo hi c : ascii) : bool :=
  (N_of_ascii lo <=? N_of_ascii c)%N && (N_of_ascii c <=? N_of_ascii hi)%N.

Definition is_digit (c : ascii) : bool := between "0" "9" c.

Definition is_word (c : ascii) : bool :=
  is_digit c || between "A" "Z" c || between "a" "z" c || Ascii.eqb c "_".

Definition in_class (cl : cclass) (c : ascii) : bool :=
  match cl with
  | CAnyNotNL => negb (Ascii.eqb c newline)
  | CDigit => is_digit c
  | CWord => is_word c
  | COneOf cs => existsb (Ascii.eqb c) cs
  | CRanges rs => existsb (fun r => between (fst r) (snd r) c) rs
  end.

Inductive regex : Type :=
| RChar (c : ascii)                      (* a literal byte *)
| RClass (cl : cclass)                   (* one byte of a class *)
| RSeq (r1 r2 : regex)                   (* r1 r2 *)
| ROpt (r : regex)                       (* (?:r)?  prefers r *)
| RStar (greedy : bool) (cl : cclass)    (* x*  or  x*? *)
| RPlus (greedy : bool) (cl : cclass)    (* x+  or  x+? *)
| RGroup (i : nat) (r : regex).          (* capturing group number i *)

Fixpoint ngroups (r : regex) : nat :=
  match r with
  | RChar _ | RClass _ | RStar _ _ | RPlus _ _ => 0
  | RSeq r1 r2 => Nat.max (ngroups r1) (ngroups r2)
  | ROpt r => ngroups r
  | RGroup i r => Nat.max i (ngroups r)
  end.

(** [consumed s s'] is the prefix of [s] that was read to reach the suffix
    [s']. *)
Definition consumed (s s' : gostring) : gostring :=
  take (length s - length s') s.

(** *** Leftmost-first matching

    Go's [regexp] returns the match a backtracking search would find first.
    The matcher below is that search, in continuation-passing style: [k] is
    what remains to be matched, and the first success in priority order is
    returned. *)
Section Backtrack.
Context {A : Type}.

Definition orelse (x y : option A) : option A :=
  match x with Some a => Some a | None => y end.

Fixpoint star (greedy : bool) (p : ascii -> bool)
    (k : gostring -> option A) (s : gostring) : option A :=
  match s with
  | c :: s' =>
      if p c then
        if greedy then orelse (star greedy p k s') (k s)
        else orelse (k s) (star greedy p k s')
      else k s
  | [] => k s
  end.

Fixpoint run (r : regex) (s : gostring) (caps : list gostring)
    (k : gostring -> list gostring -> option A) : option A :=
  match r with
  | RChar c =>
      match s with
      | c' :: s' => if Ascii.eqb c' c then k s' caps else None
      | [] => None
      end
  | RClass cl =>
      match s with
      | c' :: s' => if in_class cl c' then k s' caps else None
      | [] => None
      end
  | RSeq r1 r2 => run r1 s caps (fun s1 caps1 => run r2 s1 caps1 k)
  | ROpt r1 => orelse (run r1 s caps k) (k s caps)
  | RStar g cl => star g (in_class cl) (fun s' => k s' caps) s
  | RPlus g cl =>
      match s with
      | c' :: s' =>
          if in_class cl c' then star g (in_class cl) (fun s1 => k s1 caps) s'
          else None
      | [] => None
      end
  | RGroup i r1 =>
      run r1 s caps (fun s' caps' => k s' (<[i := consumed s s']> caps'))
  end.
End Backtrack.

(** A match that starts at the first byte of [s]: the list holds the text
    of the whole match and then of each group, an unused group being the
    empty string. *)
Definition matchAt (r : regex) (s : gostring) : option (list gostring) :=
  run r s (replicate (S (ngroups r)) [])
    (fun s' caps => Some (<[0 := consumed s s']> caps)).

(** [Regexp.FindStringSubmatch]: the leftmost match, [None] for Go's nil. *)
Fixpoint FindStringSubmatch (r : regex) (s : gostring) : option (list gostring) :=
  orelse (matchAt r s)
    (match s with
     | [] => None
     | _ :: s' => FindStringSubmatch r s'
     end).

(** [Regexp.MatchString]: does the string contain a match. *)
Definition MatchString (r : regex) (s : gostring) : bool :=
  match FindStringSubmatch r s with Some _ => true | None => false end.

(** The language of a pattern, independent of any search order. *)
Fixpoint lang (r : regex) (w : gostring) : Prop :=
  match r with
  | RChar c => w = [c]
  | RClass cl => exists c, w = [c] /\ in_class cl c = true
  | RSeq r1 r2 => exists w1 w2, w = w1 ++ w2 /\ lang r1 w1 /\ lang r2 w2
  | ROpt r1 => w = [] \/ lang r1 w
  | RStar _ cl => forallb (in_class cl) w = true
  | RPlus _ cl => w <> [] /\ forallb (in_class cl) w = true
  | RGroup _ r1 => lang r1 w
  end.

(** [consumes r s caps s' caps']: some way of matching [r] reads [s] down
    to its suffix [s'] and turns the recorded groups [caps] into [caps']. *)
Fixpoint consumes (r : regex) (s : gostring) (caps : list gostring)
    (s' : gostring) (caps' : list gostring) : Prop :=
  match r with
  | RChar c => s = c :: s' /\ caps' = caps
  | RClass cl => exists c, s = c :: s' /\ in_class cl c = true /\ caps' = caps
  | RSeq r1 r2 =>
      exists s1 caps1, consumes r1 s caps s1 caps1 /\ consumes r2 s1 caps1 s' caps'
  | ROpt r1 => (s' = s /\ caps' = caps) \/ consumes r1 s caps s' caps'
  | RStar _ cl =>
      exists w, s = w ++ s' /\ forallb (in_class cl) w = true /\ caps' = caps
  | RPlus _ cl =>
      exists w, s = w ++ s' /\ w <> [] /\ forallb (in_class cl) w = true /\
                caps' = caps
  | RGroup i r1 =>
      exists caps1, consumes r1 s caps s' caps1 /\
                    caps' = <[i := consumed s s']> caps1
  end.

(** ** strings.Split with a one-byte separator *)
Fixpoint Split (sep : ascii) (s : gostring) : list gostring :=
  match s with
  | [] => [[]]
  | c :: s' =>
      if Ascii.eqb c sep then [] :: Split sep s'
      else match Split sep s' with
           | piece :: rest => (c :: piece) :: rest
           | [] => [[c]]
           end
  end.

(** ** Decoded lines, the scanner and the collector *)

(** [iformStats] is parsed perf output for one instruction form. *)
Record iformStats : Type := {
  ext : gostring;
  iform : gostring;
  level0 : Z;
  level1 : Z;
  level2 : Z
}.

(** [testLine] is a decoded end2end test file line. *)
Record testLine : Type := {
  op : gostring;
  args : list gostring;
  text : gostring
}.

(** [testFileScanner]; [err] is [None] for Go's nil error, otherwise the
    error's message; [lineRE] is [None] for the nil pointer. *)
Record testFileScanner : Type := {
  filename : gostring;
  lineRE : option regex;
  lines : list gostring;
  line : testLine;
  err : option gostring
}.

Record currentState : Type := {
  extension : gostring;
  scanner : testFileScanner
}.

Record collector : Type := {
  memArgRE : option regex;
  vmemArgRE : option regex;
  testDir : gostring;
  availableExt : gmap gostring bool;
  stats : list iformStats;
  current : currentState;
  extensions : list gostring;
  perfTool : gostring;
  workDir : gostring;
  iformSpanSize : N;
  loopCount : N;
  perfRounds : N
}.

(** The patterns handed to [regexp.MustCompile]. *)

(* (?:-?\d+)?\(\w+\)(?:\(\w+\*[1248]\))? *)
Definition memArgRE_pattern : regex :=
  RSeq (ROpt (RSeq (ROpt (RChar "-")) (RPlus true CDigit)))
  (RSeq (RChar "(") (RSeq (RPlus true CWord) (RSeq (RChar ")")
  (ROpt (RSeq (RChar "(") (RSeq (RPlus true CWord) (RSeq (RChar "*")
        (RSeq (RClass (COneOf ["1"; "2"; "4"; "8"])) (RChar ")"))))))))).

(* (?:-?\d+)?\(\w+\)\(([XYZ])\d+\*[1248]\) *)
Definition vmemArgRE_pattern : regex :=
  RSeq (ROpt (RSeq (ROpt (RChar "-")) (RPlus true CDigit)))
  (RSeq (RChar "(") (RSeq (RPlus true CWord) (RSeq (RChar ")")
  (RSeq (RChar "(") (RSeq (RGroup 1 (RClass (COneOf ["X"; "Y"; "Z"])))
  (RSeq (RPlus true CDigit) (RSeq (RChar "*")
  (RSeq (RClass (COneOf ["1"; "2"; "4"; "8"])) (RChar ")"))))))))).

Definition hexdigit : cclass := CRanges [("0", "9"); ("a", "f")].

(* \t(.*?) (.*?) // [0-9a-f]+ *)
Definition lineRE_pattern : regex :=
  RSeq (RChar tab) (RSeq (RGroup 1 (RStar false CAnyNotNL))
  (RSeq (RChar " ") (RSeq (RGroup 2 (RStar false CAnyNotNL))
  (RSeq (RChar " ") (RSeq (RChar "/") (RSeq (RChar "/") (RSeq (RChar " ")
  (RPlus true hexdigit)))))))).

Definition sentinel : gostring := tab :: str "RET".

(** [fmt]'s [%d] verb for a [uint]. *)
Definition fmt_d (n : N) : gostring :=
  str (NilZero.string_of_uint (N.to_uint n)).

(** [fmt.Sprintf] for a format with one [%d] verb and one argument. *)
Fixpoint Sprintf_d (format : gostring) (n : N) : gostring :=
  match format with
  | "%" :: "d" :: rest => fmt_d n ++ rest
  | c :: rest => c :: Sprintf_d rest n
  | [] => []
  end.

(** One line of the raw string literal in [prepareWorkDir]: a newline, the
    indentation and the text. *)
Definition srcline (indent : nat) (t : string) : gostring :=
  newline :: replicate indent tab ++ str t.

Definition mainFileTemplate : gostring :=
  srcline 2 "// Code generated by avx512counters. DO NOT EDIT." ++
  srcline 2 "package main" ++
  srcline 2 "func avx512routine" ++ str "(" ++ str "*[1024]byte)" ++
  srcline 2 "func main() {" ++
  srcline 3 "var memory [1024]byte" ++
  srcline 3 "for i := 0; i < %d; i++ {" ++
  srcline 4 "// Fill memory argument with some values." ++
  srcline 4 "for i := range memory {" ++
  srcline 5 "memory[i] = byte(i)" ++
  srcline 4 "}" ++
  srcline 4 "avx512routine(&memory)" ++
  srcline 3 "}" ++
  srcline 2 "}".

Definition mainFileContents (c : collector) : gostring :=
  Sprintf_d mainFileTemplate (loopCount c).

(** The classes of §4.1 of the specification. *)
Inductive OperandClass : Type :=
| PlainOperand
| MemoryOperand
| VectorMemoryOperand.

(** Modelled from the spec: the classifier of §4.1 is not in the source,
    which only compiles its two patterns in [collector.init].  An operand
    is a VectorMemoryOperand when [vmemArgRE] matches it, otherwise a
    MemoryOperand when [memArgRE] matches it, otherwise a PlainOperand. *)
Definition classify (arg : gostring) : OperandClass :=
  if MatchString vmemArgRE_pattern arg then VectorMemoryOperand
  else if MatchString memArgRE_pattern arg then MemoryOperand
  else PlainOperand.

(** Library functions the program calls, and the file system it reads. *)
Class GoLib : Type := {
  (** the [%q] verb of [fmt] ([strconv.Quote]) *)
  Quote : gostring -> gostring;
  (** [strings.TrimSpace] *)
  TrimSpace : gostring -> gostring;
  (** [filepath.Join] of two elements *)
  Join : gostring -> gostring -> gostring;
  (** [ioutil.ReadFile]: the file's bytes, or the error's message *)
  ReadFile : gostring -> gostring + gostring
}.

Section Program.
Context {lib : GoLib}.

Definition collector_init (c : collector) : collector * option gostring :=
  ({| memArgRE := Some memArgRE_pattern;
      vmemArgRE := Some vmemArgRE_pattern;
      testDir := testDir c;
      availableExt := ∅;
      stats := stats c;
      current := current c;
      extensions := extensions c;
      perfTool := perfTool c;
      workDir := workDir c;
      iformSpanSize := iformSpanSize c;
      loopCount := loopCount c;
      perfRounds := perfRounds c |}, None).

(** [c.availableExt[ext]]: a missing key reads as false. *)
Definition available (c : collector) (e : gostring) : bool :=
  default false (availableExt c !! e).

Fixpoint firstUnavailable (c : collector) (exts : list gostring)
    : option gostring :=
  match exts with
  | [] => None
  | e :: rest =>
      if available c e then firstUnavailable c rest else Some e
  end.

Definition validateFlags (c : collector) : option gostring :=
  match firstUnavailable c (extensions c) with
  | Some e => Some (str "unavailable extension: " ++ Quote e)
  | None =>
      if Nat.eqb (length (extensions c)) 0 then
        Some (str "expected at least 1 extension name")
      else if Nat.eqb (length (perfTool c)) 0 then
        Some (str "argument -perf can't be empty")
      else if N.eqb (iformSpanSize c) 0 then
        Some (str "argument -iformSpanSize can't be 0")
      else if N.eqb (loopCount c) 0 then
        Some (str "argument -loopCount can't be 0")
      else if N.eqb (perfRounds c) 0 then
        Some (str "argument -perfRounds can't be 0")
      else None
  end.

(** What [prepareWorkDir] writes: the path and the bytes of [main.go]. *)
Definition prepareWorkDir_output (c : collector) : gostring * gostring :=
  (Join (workDir c) (str "main.go"), mainFileContents c).

(** The loop of [testFileScanner.init]: drop lines while the first one is
    empty or does not start with a tab; [s.lines[0]] on an empty slice
    panics. *)
Fixpoint skipHeader (ls : list gostring) : outcome (list gostring) :=
  match ls with
  | [] => Panic
  | l :: rest =>
      match l with
      | [] => skipHeader rest
      | c :: _ => if Ascii.eqb c tab then Ok ls else skipHeader rest
      end
  end.

Definition testFileScanner_init (s : testFileScanner)
    : outcome (testFileScanner * option gostring) :=
  match ReadFile (filename s) with
  | inr e => Ok (s, Some e)
  | inl data =>
      match skipHeader (Split newline data) with
      | Panic => Panic
      | Ok ls =>
          Ok ({| filename := filename s;
                 lineRE := Some lineRE_pattern;
                 lines := ls;
                 line := line s;
                 err := err s |}, None)
      end
  end.

Definition errUnexpectedEOF (s : testFileScanner) : gostring :=
  filename s ++ str ": unexpected EOF (expected RET instruction)".

Definition errNoMatch (s : testFileScanner) (l : gostring) : gostring :=
  filename s ++ str ": unexpected " ++ Quote l ++
  str " line (does not match pattern)".

Definition withErr (s : testFileScanner) (e : gostring) : testFileScanner :=
  {| filename := filename s; lineRE := lineRE s; lines := lines s;
     line := line s; err := Some e |}.

Definition scan (s : testFileScanner) : outcome (bool * testFileScanner) :=
  match err s with
  | Some _ => Ok (false, s)
  | None =>
      match lines s with
      | [] => Ok (false, withErr s (errUnexpectedEOF s))
      | l :: rest =>
          if decide (l = sentinel) then Ok (false, s)
          else
            match lineRE s with
            | None => Panic
            | Some re =>
                match FindStringSubmatch re l with
                | None => Ok (false, withErr s (errNoMatch s l))
                | Some (m0 :: m1 :: m2 :: _) =>
                    Ok (true,
                        {| filename := filename s; lineRE := lineRE s;
                           lines := rest;
                           line := {| op := m1;
                                      args := map TrimSpace (Split "," m2);
                                      text := m0 |};
                           err := err s |})
                | Some _ => Panic
                end
            end
      end
  end.

Definition newScanner (name : gostring) : testFileScanner :=
  {| filename := name; lineRE := None; lines := [];
     line := {| op := []; args := []; text := [] |}; err := None |}.

Definition withCurrent (c : collector) (cur : currentState) : collector :=
  {| memArgRE := memArgRE c; vmemArgRE := vmemArgRE c;
     testDir := testDir c; availableExt := availableExt c;
     stats := stats c; current := cur; extensions := extensions c;
     perfTool := perfTool c; workDir := workDir c;
     iformSpanSize := iformSpanSize c; loopCount := loopCount c;
     perfRounds := perfRounds c |}.

Definition withStats (c : collector) (st : list iformStats) : collector :=
  {| memArgRE := memArgRE c; vmemArgRE := vmemArgRE c;
     testDir := testDir c; availableExt := availableExt c;
     stats := st; current := current c; extensions := extensions c;
     perfTool := perfTool c; workDir := workDir c;
     iformSpanSize := iformSpanSize c; loopCount := loopCount c;
     perfRounds := perfRounds c |}.

Definition evaluateCurrent (c : collector)
    : list iformStats * option gostring :=
  ([], None).

Definition logSkip (e msg : gostring) : gostring :=
  str "skip " ++ e ++ str ": can't scan test file: " ++ msg.

Definition logFailed (e msg : gostring) : gostring :=
  str "failed " ++ e ++ str ": " ++ msg.

(** The state of a run: the collector and the lines printed by [log]. *)
Definition runState : Type := collector * list gostring.

Section Collect.
(** The evaluation step; [collectCounters] below fixes it to
    [evaluateCurrent]. *)
Variable eval : collector -> list iformStats * option gostring.

(** One iteration of the loop of [collectCounters]. *)
Definition collectOne (e : gostring) (st : runState) : outcome runState :=
  let '(c, out) := st in
  let name := Join (testDir c) (e ++ str ".s") in
  let c0 := withCurrent c {| extension := e; scanner := newScanner name |} in
  match testFileScanner_init (scanner (current c0)) with
  | Panic => Panic
  | Ok (sc, r) =>
      let c1 := withCurrent c0 {| extension := e; scanner := sc |} in
      match r with
      | Some msg => Ok (c1, out ++ [logSkip e msg])
      | None =>
          match eval c1 with
          | (_, Some msg) => Ok (c1, out ++ [logFailed e msg])
          | (found, None) => Ok (withStats c1 (stats c1 ++ found), out)
          end
      end
  end.

Fixpoint collectLoop (exts : list gostring) (st : runState)
    : outcome runState :=
  match exts with
  | [] => Ok st
  | e :: rest =>
      match collectOne e st with
      | Panic => Panic
      | Ok st' => collectLoop rest st'
      end
  end.

Definition collectCountersWith (st : runState)
    : outcome (runState * option gostring) :=
  match collectLoop (extensions (fst st)) st with
  | Panic => Panic
  | Ok st' => Ok (st', None)
  end.
End Collect.

Definition collectCounters (st : runState)
    : outcome (runState * option gostring) :=
  collectCountersWith evaluateCurrent st.

End Program.


(** A small library instance for examples: files are looked up in a list,
    paths are joined with a slash, quoting adds the two quote marks (right
    for text without quotes, backslashes and control bytes), and trimming
    removes ASCII blanks. *)
Definition isBlank (c : ascii) : bool :=
  existsb (Ascii.eqb c) [" "; "009"; "010"; "011"; "012"; "013"].

Fixpoint trimLeft (s : gostring) : gostring :=
  match s with
  | c :: s' => if isBlank c then trimLeft s' else s
  | [] => []
  end.

Definition trimBlanks (s : gostring) : gostring :=
  rev (trimLeft (rev (trimLeft s))).

Fixpoint lookupFile (files : list (gostring * gostring)) (path : gostring)
    : gostring + gostring :=
  match files with
  | [] => inr (str "open " ++ path ++ str ": no such file or directory")
  | (p, data) :: rest =>
      if decide (p = path) then inl data else lookupFile rest path
  end.

Definition exampleLib (files : list (gostring * gostring)) : GoLib :=
  {| Quote := fun s => "034" :: s ++ ["034"];
     TrimSpace := trimBlanks;
     Join := fun a b => a ++ "/" :: b;
     ReadFile := lookupFile files |}.

(** ** The steps of [main]

    [main] runs its steps in order and stops the process with [log.Fatalf]
    at the first one that returns an error.  The steps that only talk to
    the operating system are parameters. *)
Class OSSteps : Type := {
  locateTestDir : runState -> outcome (runState * option gostring);
  readExtensions : runState -> outcome (runState * option gostring);
  parseFlags : runState -> outcome (runState * option gostring);
  prepareWorkDir : runState -> outcome (runState * option gostring);
  visitWorkDir : runState -> outcome (runState * option gostring)
}.

Inductive exit : Type :=
| Finished (st : runState)                  (* main returned *)
| Fatal (msg : gostring) (st : runState)    (* log.Fatalf: message, exit 1 *)
| Crashed.                                  (* panic *)

Record step : Type := {
  name : gostring;
  fn : runState -> outcome (runState * option gostring)
}.

Fixpoint runSteps (steps : list step) (st : runState) : exit :=
  match steps with
  | [] => Finished st
  | s :: rest =>
      match fn s st with
      | Panic => Crashed
      | Ok (st', Some e) => Fatal (name s ++ str ": " ++ e) st'
      | Ok (st', None) => runSteps rest st'
      end
  end.

Section Main.
Context {lib : GoLib} {os : OSSteps}.

Definition probingSteps : list step :=
  [ {| name := str "prepare work dir"; fn := prepareWorkDir |};
    {| name := str "visit work dir"; fn := visitWorkDir |};
    {| name := str "collect counters"; fn := collectCounters |} ].

Definition steps : list step :=
  [ {| name := str "init collector";
       fn := fun st => let '(c, e) := collector_init (fst st) in
                       Ok ((c, snd st), e) |};
    {| name := str "locate test dir"; fn := locateTestDir |};
    {| name := str "read extensions"; fn := readExtensions |};
    {| name := str "parse command-line args"; fn := parseFlags |};
    {| name := str "validate command-line args";
       fn := fun st => Ok (st, validateFlags (fst st)) |} ]
  ++ probingSteps.

Definition main (st : runState) : exit := runSteps steps st.

End Main.

(** ** Definitions used to state the properties *)

(** The text of a memory operand as §4.1 of the specification describes
    it: an optional signed displacement, a base register in parentheses,
    and an optional index register times scale in parentheses. *)
Record memOperandText : Type := {
  displacement : option (bool * gostring);  (* minus sign?, digits *)
  baseReg : gostring;
  indexScale : option (gostring * ascii)    (* index register, scale *)
}.

Definition renderOperand (m : memOperandText) : gostring :=
  match displacement m with
  | None => []
  | Some (neg, ds) => (if neg : bool then ["-"] else []) ++ ds
  end ++
  "(" :: baseReg m ++
  ")" :: match indexScale m with
         | None => []
         | Some (idx, sc) => "(" :: idx ++ ["*"; sc; ")"]
         end.

Definition nonempty (s : gostring) : bool :=
  match s with [] => false | _ :: _ => true end.

Definition isScale (c : ascii) : bool :=
  existsb (Ascii.eqb c) ["1"; "2"; "4"; "8"].

Definition isXYZ (c : ascii) : bool :=
  existsb (Ascii.eqb c) ["X"; "Y"; "Z"].

Definition wfOperand (m : memOperandText) : bool :=
  match displacement m with
  | None => true
  | Some (_, ds) => nonempty ds && forallb is_digit ds
  end &&
  (nonempty (baseReg m) && forallb is_word (baseReg m)) &&
  match indexScale m with
  | None => true
  | Some (idx, sc) => nonempty idx && forallb is_word idx && isScale sc
  end.

(** The index register begins with X, Y or Z. *)
Definition indexBeginsXYZ (m : memOperandText) : bool :=
  match indexScale m with
  | Some (c :: _, _) => isXYZ c
  | _ => false
  end.

(** The index register is X, Y or Z followed by decimal digits. *)
Definition indexIsVectorReg (m : memOperandText) : bool :=
  match indexScale m with
  | Some (c :: ds, _) => isXYZ c && nonempty ds && forallb is_digit ds
  | _ => false
  end.

Definition startsWithTab (l : gostring) : bool :=
  match l with
  | c :: _ => Ascii.eqb c tab
  | [] => false
  end.

(** Reading a generated [main.go]: the decimal number that follows a
    marker; the loop bound is the one after [for i := 0; i < ]. *)
Fixpoint stripPrefix (p s : gostring) : option gostring :=
  match p, s with
  | [], _ => Some s
  | a :: p', b :: s' => if Ascii.eqb a b then stripPrefix p' s' else None
  | _ :: _, [] => None
  end.

Fixpoint after (marker s : gostring) : option gostring :=
  match stripPrefix marker s with
  | Some rest => Some rest
  | None =>
      match s with
      | [] => None
      | _ :: s' => after marker s'
      end
  end.

Fixpoint leadingDigits (s : gostring) : gostring :=
  match s with
  | c :: s' => if is_digit c then c :: leadingDigits s' else []
  | [] => []
  end.

Definition numberAfter (marker source : gostring) : option N :=
  match after marker source with
  | None => None
  | Some rest =>
      match NilZero.uint_of_string (string_of_list_ascii (leadingDigits rest)) with
      | Some d => Some (N.of_uint d)
      | None => None
      end
  end.

Definition loopBound (source : gostring) : option N :=
  numberAfter (str "for i := 0; i < ") source.

(** A continuation whose success does not depend on the groups recorded so
    far. *)
Definition capfree {A} (k : gostring -> list gostring -> option A) : Prop :=
  forall s c1 c2, is_Some (k s c1) -> is_Some (k s c2).


(** The displacement of an operand as text, and the part of the two
    operand patterns that reads it. *)
Definition renderDisp (d : option (bool * gostring)) : gostring :=
  match d with
  | None => []
  | Some (neg, ds) => (if neg : bool then ["-"] else []) ++ ds
  end.

Definition dispRE : regex := ROpt (RSeq (ROpt (RChar "-")) (RPlus true CDigit)).


(** The generated [main.go] up to the loop bound, and from the loop bound
    on. *)
Definition driverHead : gostring :=
  srcline 2 "// Code generated by avx512counters. DO NOT EDIT." ++
  srcline 2 "package main" ++
  srcline 2 "func avx512routine" ++ str "(" ++ str "*[1024]byte)" ++
  srcline 2 "func main() {" ++
  srcline 3 "var memory [1024]byte" ++
  srcline 3 "for i := 0; i < ".

Definition driverTail : gostring :=
  str "; i++ {" ++
  srcline 4 "// Fill memory argument with some values." ++
  srcline 4 "for i := range memory {" ++
  srcline 5 "memory[i] = byte(i)" ++
  srcline 4 "}" ++
  srcline 4 "avx512routine(&memory)" ++
  srcline 3 "}" ++
  srcline 2 "}".

(** The size written in the declaration of the buffer. *)
Definition bufferSize (source : gostring) : option N :=
  numberAfter (str "var memory [") source.

Definition exampleCollector : collector :=
  {| memArgRE := Some memArgRE_pattern;
     vmemArgRE := Some vmemArgRE_pattern;
     testDir := str "testdata";
     availableExt := {[ str "avx512f" := true ]};
     stats := [];
     current := {| extension := []; scanner := newScanner [] |};
     extensions := [str "missing"; str "avx512f"];
     perfTool := str "perf";
     workDir := str "/tmp/avx512counters-workdir";
     iformSpanSize := 100;
     loopCount := 1000000;
     perfRounds := 1 |}.

Section ScannerStates.
Context {lib : GoLib}.

(** The scanner states the program works with: [init] has set the line
    pattern, no line holds a newline, and an error, once recorded, is the
    one [scan] recorded for the lines that are left. *)
Definition scannerReady (s : testFileScanner) : Prop :=
  lineRE s = Some lineRE_pattern /\
  Forall (fun l => newline ∉ l) (lines s) /\
  match err s with
  | None => True
  | Some e =>
      match lines s with
      | [] => e = errUnexpectedEOF s
      | l :: _ =>
          l <> sentinel /\ FindStringSubmatch lineRE_pattern l = None /\
          e = errNoMatch s l
      end
  end.

(** The states reached by [init] on a fresh scanner followed by calls of
    [scan]. *)
Inductive reachable : testFileScanner -> Prop :=
| reach_init file s :
    testFileScanner_init (newScanner file) = Ok (s, None) ->
    reachable s
| reach_scan s b s' :
    reachable s -> scan s = Ok (b, s') -> reachable s'.

(** The fixture of extension [e]. *)
Definition fixturePath (c : collector) (e : gostring) : gostring :=
  Join (testDir c) (e ++ str ".s").

(** No extension's fixture makes [init] panic. *)
Definition initsReturn (c : collector) : Prop :=
  forall e, e ∈ extensions c ->
    testFileScanner_init (newScanner (fixturePath c e)) <> Panic.

(** The line [log] prints for an extension whose fixture cannot be read. *)
Definition skipLine (c : collector) (e : gostring) : option gostring :=
  match ReadFile (fixturePath c e) with
  | inr msg => Some (logSkip e msg)
  | inl _ => None
  end.

End ScannerStates.

(** Operating-system steps that always succeed and change nothing. *)
Definition idleSteps : OSSteps :=
  {| locateTestDir := fun st => Ok (st, None);
     readExtensions := fun st => Ok (st, None);
     parseFlags := fun st => Ok (st, None);
     prepareWorkDir := fun st => Ok (st, None);
     visitWorkDir := fun st => Ok (st, None) |}.

(** ** Example inputs *)

Definition exampleFixture : gostring :=
  str "// Code generated by avx512test. DO NOT EDIT." ++ [newline] ++
  [newline] ++
  str "TEXT asmtest_avx512f(SB), NOSPLIT, $0" ++ [newline] ++
  tab :: str "VADDPD Z1, Z2, Z3 // 62f1ed4858d9" ++ [newline] ++
  tab :: str "VGATHERDPD 7(AX)(X4*8), K1, X2 // 62f2fd09925407" ++ [newline] ++
  sentinel ++ [newline].

Definition headerOnlyFixture : gostring :=
  str "// Code generated by avx512test. DO NOT EDIT." ++ [newline].

Definition exampleFiles : list (gostring * gostring) :=
  [ (str "testdata/avx512f.s", exampleFixture);
    (str "testdata/empty.s", []);
    (str "testdata/header.s", headerOnlyFixture) ].

Definition exampleGo : GoLib := exampleLib exampleFiles.

Definition exampleScanner (ls : list gostring) : testFileScanner :=
  {| filename := str "testdata/avx512f.s";
     lineRE := Some lineRE_pattern;
     lines := ls;
     line := {| op := []; args := []; text := [] |};
     err := None |}.

Definition exampleLine : gostring :=
  tab :: str "VGATHERDPD 7(AX)(X4*8), K1, X2 // 62f2fd09925407".

(** An operand whose index register begins with X and is not a vector
    register: [(AX)(XA*4)]. *)
Definition exampleOperand : memOperandText :=
  {| displacement := None; baseReg := str "AX";
     indexScale := Some (str "XA", "4") |}.

(** ** Further steps of the collector

    [readExtensions] and [parseFlags] read the directory listing, the
    parsed flag values and [filepath.Abs]; these are parameters. *)

(** [strings.HasSuffix] and [strings.TrimSuffix]. *)
Definition HasSuffix (s suffix : gostring) : bool :=
  Nat.leb (length suffix) (length s) &&
  bool_decide (drop (length s - length suffix) s = suffix).

Definition TrimSuffix (s suffix : gostring) : gostring :=
  if HasSuffix s suffix then take (length s - length suffix) s else s.

Class GoOS : Type := {
  (** [ioutil.ReadDir]: the names of the entries, or the error's message *)
  ReadDir : gostring -> list gostring + gostring;
  (** [filepath.Abs] *)
  Abs : gostring -> gostring + gostring
}.

(** The values [flag.Parse] leaves in the variables bound by
    [parseFlags]. *)
Record flagValues : Type := {
  flagExtensions : gostring;
  flagPerf : gostring;
  flagWorkDir : gostring;
  flagIformSpanSize : N;
  flagLoopCount : N;
  flagPerfRounds : N
}.

(** The defaults given to the [flag] package. *)
Definition defaultFlags : flagValues :=
  {| flagExtensions := str "avx512f,avx512dq,avx512cd,avx512bw";
     flagPerf := str "perf";
     flagWorkDir := str "./avx512counters-workdir";
     flagIformSpanSize := 100;
     flagLoopCount := 1 * 1000 * 1000;
     flagPerfRounds := 1 |}.

Section Steps.
Context {lib : GoLib} {sys : GoOS}.

(** The loop of [readExtensions]: [c.availableExt[ext] = true] for every
    entry, in order. *)
Fixpoint markAvailable (names : list gostring) (m : gmap gostring bool)
    : gmap gostring bool :=
  match names with
  | [] => m
  | f :: rest => markAvailable rest (<[TrimSuffix f (str ".s") := true]> m)
  end.

(** [collector.readExtensions].  The map written to is the one [init]
    made. *)
Definition collector_readExtensions (c : collector)
    : collector * option gostring :=
  match ReadDir (testDir c) with
  | inr e => (c, Some e)
  | inl names =>
      ({| memArgRE := memArgRE c; vmemArgRE := vmemArgRE c;
          testDir := testDir c;
          availableExt := markAvailable names (availableExt c);
          stats := stats c; current := current c;
          extensions := extensions c; perfTool := perfTool c;
          workDir := workDir c; iformSpanSize := iformSpanSize c;
          loopCount := loopCount c; perfRounds := perfRounds c |}, None)
  end.

(** [collector.parseFlags], given the parsed flag values. *)
Definition collector_parseFlags (fv : flagValues) (c : collector)
    : collector * option gostring :=
  let exts := extensions c ++ map TrimSpace (Split "," (flagExtensions fv)) in
  let withDir (dir : gostring) : collector :=
    {| memArgRE := memArgRE c; vmemArgRE := vmemArgRE c;
       testDir := testDir c; availableExt := availableExt c;
       stats := stats c; current := current c;
       extensions := exts; perfTool := flagPerf fv;
       workDir := dir; iformSpanSize := flagIformSpanSize fv;
       loopCount := flagLoopCount fv; perfRounds := flagPerfRounds fv |} in
  match Abs (flagWorkDir fv) with
  | inr e => (withDir (flagWorkDir fv), Some (str "expand -workDir: " ++ e))
  | inl absWorkDir => (withDir absWorkDir, None)
  end.

(** What [scan] stores for a line the pattern matches. *)
Definition decodeLine (l : gostring) : option testLine :=
  match FindStringSubmatch lineRE_pattern l with
  | Some (m0 :: m1 :: m2 :: _) =>
      Some {| op := m1; args := map TrimSpace (Split "," m2); text := m0 |}
  | _ => None
  end.

(** The loop [for s.scan() { ... s.line ... }] over a scanner, collecting
    the decoded lines; [fuel] bounds the number of calls of [scan]. *)
Fixpoint drain (fuel : nat) (s : testFileScanner)
    : outcome (list testLine * testFileScanner) :=
  match fuel with
  | 0 => Ok ([], s)
  | S fuel' =>
      match scan s with
      | Panic => Panic
      | Ok (false, s') => Ok ([], s')
      | Ok (true, s') =>
          match drain fuel' s' with
          | Panic => Panic
          | Ok (recs, s'') => Ok (line s' :: recs, s'')
          end
      end
  end.

End Steps.

(** A directory with two fixtures and a stray file, for examples. *)
Definition exampleOS : GoOS :=
  {| ReadDir := fun dir =>
       if decide (dir = str "testdata")
       then inl [str "README"; str "avx512cd.s"; str "avx512f.s"]
       else inr (str "open " ++ dir ++ str ": no such file or directory");
     Abs := fun p => inl (str "/home/user/" ++ p) |}.

(** A collector before [init], pointed at the example test directory, the
    flags of an example run, and the operating-system steps of [main] for
    them. *)
Definition freshCollector : collector :=
  {| memArgRE := None; vmemArgRE := None;
     testDir := str "testdata";
     availableExt := ∅;
     stats := [];
     current := {| extension := []; scanner := newScanner [] |};
     extensions := [];
     perfTool := [];
     workDir := [];
     iformSpanSize := 0;
     loopCount := 0;
     perfRounds := 0 |}.

Definition exampleFlags : flagValues :=
  {| flagExtensions := str "avx512f, avx512cd";
     flagPerf := str "perf";
     flagWorkDir := str "work";
     flagIformSpanSize := 100;
     flagLoopCount := 1000;
     flagPerfRounds := 2 |}.

Definition exampleSteps : OSSteps :=
  {| locateTestDir := fun st => Ok (st, None);
     readExtensions := fun st =>
       let '(c, e) := @collector_readExtensions exampleOS (fst st) in
       Ok ((c, snd st), e);
     parseFlags := fun st =>
       let '(c, e) := @collector_parseFlags exampleGo exampleOS exampleFlags
                        (fst st) in
       Ok ((c, snd st), e);
     prepareWorkDir := fun st => Ok (st, None);
     visitWorkDir := fun st => Ok (st, None) |}.

Definition exampleRecord : testLine :=
  {| op := str "VGATHERDPD";
     args := [str "7(AX)(X4*8)"; str "K1"; str "X2"];
     text := exampleLine |}.

(** Inputs on which the program departs from what is expected of it: a
    fixture line with two encodings, a selection that holds an empty
    fixture, a loop count above the largest [int] of a 64-bit platform,
    and a selection that names a directory entry without the [.s]
    suffix. *)
Definition vaesdecLine : gostring :=
  tab :: str "VAESDEC X24, X7, X11 // 62124508ded8 or 6212c508ded8".

Definition maxInt : N := 9223372036854775807.

Definition emptyFixtureCollector : collector :=
  {| memArgRE := Some memArgRE_pattern;
     vmemArgRE := Some vmemArgRE_pattern;
     testDir := str "testdata";
     availableExt := {[ str "empty" := true; str "avx512f" := true ]};
     stats := [];
     current := {| extension := []; scanner := newScanner [] |};
     extensions := [str "empty"; str "avx512f"];
     perfTool := str "perf";
     workDir := str "/tmp/avx512counters-workdir";
     iformSpanSize := 100;
     loopCount := 1000000;
     perfRounds := 1 |}.

Definition bigLoopCollector : collector :=
  {| memArgRE := Some memArgRE_pattern;
     vmemArgRE := Some vmemArgRE_pattern;
     testDir := str "testdata";
     availableExt := {[ str "avx512f" := true ]};
     stats := [];
     current := {| extension := []; scanner := newScanner [] |};
     extensions := [str "avx512f"];
     perfTool := str "perf";
     workDir := str "/tmp/avx512counters-workdir";
     iformSpanSize := 100;
     loopCount := 9223372036854775808;
     perfRounds := 1 |}.

Definition strayCollector : collector :=
  {| memArgRE := None; vmemArgRE := None;
     testDir := str "testdata";
     availableExt := ∅;
     stats := [];
     current := {| extension := []; scanner := newScanner [] |};
     extensions := [str "README"];
     perfTool := str "perf";
     workDir := str "/tmp/avx512counters-workdir";
     iformSpanSize := 100;
     loopCount := 1000000;
     perfRounds := 1 |}.

(** ** The matcher and the language of a pattern *)

Lemma consumed_app (w s : gostring) : consumed (w ++ s) s = w.
Proof.
  unfold consumed. rewrite length_app.
  replace (length w + length s - length s) with (length w) by lia.
  apply take_app_length.
Qed.

Lemma orelse_is_Some {A} (x y : option A) :
  is_Some (orelse x y) <-> is_Some x \/ is_Some y.
Proof.
  destruct x as [a|]; simpl.
  - split; [left; eauto | eauto].
  - split; [right; assumption | intros [[a Ha]|H]; [discriminate | assumption]].
Qed.

Lemma star_is_Some {A} g p (k : gostring -> option A) s :
  is_Some (star g p k s) <->
  exists w s', s = w ++ s' /\ forallb p w = true /\ is_Some (k s').
Proof.
  induction s as [|c s IH]; simpl.
  - split.
    + intros H. exists [], []. auto.
    + intros (w & s' & E & _ & H). symmetry in E.
      apply app_eq_nil in E as [-> ->]. assumption.
  - assert (Hhere : is_Some (k (c :: s)) ->
      exists w s', c :: s = w ++ s' /\ forallb p w = true /\ is_Some (k s')).
    { intros H. exists [], (c :: s). auto. }
    assert (Hnext : is_Some (star g p k s) -> p c = true ->
      exists w s', c :: s = w ++ s' /\ forallb p w = true /\ is_Some (k s')).
    { intros H Hc. apply IH in H as (w & s' & -> & Hw & Hk).
      exists (c :: w), s'. simpl. rewrite Hc, Hw. auto. }
    assert (Hback : forall w s', c :: s = w ++ s' -> forallb p w = true ->
      is_Some (k s') ->
      is_Some (k (c :: s)) \/ (p c = true /\ is_Some (star g p k s))).
    { intros [|c' w] s' E Hw Hk; simpl in *.
      - subst s'. left. assumption.
      - injection E as -> ->. apply andb_true_iff in Hw as [Hc Hw].
        right. split; [assumption|]. apply IH. eauto. }
    destruct (p c) eqn:Hc.
    + destruct g; rewrite orelse_is_Some; split.
      * intros [H|H]; auto.
      * intros (w & s' & E & Hw & Hk).
        destruct (Hback _ _ E Hw Hk) as [H|[_ H]]; auto.
      * intros [H|H]; auto.
      * intros (w & s' & E & Hw & Hk).
        destruct (Hback _ _ E Hw Hk) as [H|[_ H]]; auto.
    + split; [auto|].
      intros (w & s' & E & Hw & Hk).
      destruct (Hback _ _ E Hw Hk) as [H|[H _]]; [assumption | discriminate].
Qed.

Lemma run_is_Some {A} (r : regex) :
  forall s caps (k : gostring -> list gostring -> option A),
    capfree k ->
    (is_Some (run r s caps k) <->
     exists w s', s = w ++ s' /\ lang r w /\ is_Some (k s' caps)).
Proof.
  induction r as [c|cl|r1 IH1 r2 IH2|r1 IH1|g cl|g cl|i r1 IH1];
    intros s caps k Hk; simpl.
  - destruct s as [|c' s].
    + split; [intros [? ?]; discriminate|].
      intros (w & s' & E & -> & _). discriminate.
    + destruct (Ascii.eqb_spec c' c) as [->|Hne].
      * split.
        -- intros H. exists [c], s. auto.
        -- intros (w & s' & E & -> & H). injection E as ->. assumption.
      * split; [intros [? ?]; discriminate|].
        intros (w & s' & E & -> & _). injection E as -> _. congruence.
  - destruct s as [|c' s].
    + split; [intros [? ?]; discriminate|].
      intros (w & s' & E & (c & -> & _) & _). discriminate.
    + destruct (in_class cl c') eqn:Hc.
      * split.
        -- intros H. exists [c'], s. split; [reflexivity|]. split; [eauto|assumption].
        -- intros (w & s' & E & (c & -> & _) & H). injection E as _ ->. assumption.
      * split; [intros [? ?]; discriminate|].
        intros (w & s' & E & (c & -> & Hc') & _). injection E as -> _. congruence.
  - assert (Hk2 : capfree (fun s1 caps1 => run r2 s1 caps1 k)).
    { intros s1 c1 c2 H. apply (IH2 _ _ _ Hk) in H as (w & s' & E & Hw & H).
      apply (IH2 _ _ _ Hk). exists w, s'. eauto. }
    rewrite (IH1 _ _ _ Hk2). split.
    + intros (w1 & s1 & -> & H1 & H). apply (IH2 _ _ _ Hk) in H as (w2 & s2 & -> & H2 & H).
      exists (w1 ++ w2), s2. rewrite <- app_assoc. split; [reflexivity|].
      split; [exists w1, w2; auto | assumption].
    + intros (w & s' & -> & (w1 & w2 & -> & H1 & H2) & H).
      exists w1, (w2 ++ s'). rewrite <- app_assoc. split; [reflexivity|].
      split; [assumption|]. apply (IH2 _ _ _ Hk). eauto.
  - rewrite orelse_is_Some, (IH1 _ _ _ Hk). split.
    + intros [(w & s' & E & Hw & H)|H].
      * exists w, s'. auto.
      * exists [], s. auto.
    + intros (w & s' & E & [->|Hw] & H).
      * right. simpl in E. subst s'. assumption.
      * left. eauto.
  - apply star_is_Some.
  - destruct s as [|c' s].
    + split; [intros [? ?]; discriminate|].
      intros (w & s' & E & (Hne & _) & _). symmetry in E.
      apply app_eq_nil in E as [-> _]. congruence.
    + destruct (in_class cl c') eqn:Hc.
      * rewrite star_is_Some. split.
        -- intros (w & s' & -> & Hw & H). exists (c' :: w), s'. simpl.
           rewrite Hc, Hw. auto.
        -- intros (w & s' & E & (Hne & Hw) & H).
           destruct w as [|c0 w]; [congruence|]. simpl in E, Hw.
           injection E as -> ->. apply andb_true_iff in Hw as [_ Hw]. eauto.
      * split; [intros [? ?]; discriminate|].
        intros (w & s' & E & (Hne & Hw) & H).
        destruct w as [|c0 w]; [congruence|]. simpl in E, Hw.
        injection E as -> ->. rewrite Hc in Hw. discriminate.
  - assert (Hk1 : capfree (fun s' caps' => k s' (<[i := consumed s s']> caps'))).
    { intros s1 c1 c2 H. eapply Hk. exact H. }
    rewrite (IH1 _ _ _ Hk1). split.
    + intros (w & s' & E & Hw & H). exists w, s'. split; [assumption|].
      split; [assumption|]. eapply Hk. exact H.
    + intros (w & s' & E & Hw & H). exists w, s'. split; [assumption|].
      split; [assumption|]. eapply Hk. exact H.
Qed.

Lemma matchAt_is_Some (r : regex) (s : gostring) :
  is_Some (matchAt r s) <-> exists w s', s = w ++ s' /\ lang r w.
Proof.
  unfold matchAt. rewrite run_is_Some.
  - split.
    + intros (w & s' & E & Hw & _). eauto.
    + intros (w & s' & E & Hw). exists w, s'. eauto.
  - intros s1 c1 c2 _. eauto.
Qed.

Lemma FindStringSubmatch_is_Some (r : regex) (s : gostring) :
  is_Some (FindStringSubmatch r s) <->
  exists pre w post, s = pre ++ w ++ post /\ lang r w.
Proof.
  induction s as [|c s IH].
  - simpl. rewrite orelse_is_Some, matchAt_is_Some. split.
    + intros [(w & s' & E & Hw)|[? ?]]; [|discriminate].
      exists [], w, s'. auto.
    + intros (pre & w & post & E & Hw). left. symmetry in E.
      apply app_eq_nil in E as [-> E]. exists w, post. auto.
  - cbn [FindStringSubmatch]. rewrite orelse_is_Some, matchAt_is_Some, IH. split.
    + intros [(w & s' & E & Hw)|(pre & w & post & -> & Hw)].
      * exists [], w, s'. auto.
      * exists (c :: pre), w, post. auto.
    + intros ([|c' pre] & w & post & E & Hw).
      * left. exists w, post. auto.
      * right. injection E as -> ->. eauto.
Qed.

Lemma MatchString_true (r : regex) (s : gostring) :
  MatchString r s = true <->
  exists pre w post, s = pre ++ w ++ post /\ lang r w.
Proof.
  rewrite <- FindStringSubmatch_is_Some. unfold MatchString.
  destruct (FindStringSubmatch r s); split; intros H; eauto;
    try discriminate. destruct H; discriminate.
Qed.

Lemma star_sound {A} g p (k : gostring -> option A) s a :
  star g p k s = Some a ->
  exists w s', s = w ++ s' /\ forallb p w = true /\ k s' = Some a.
Proof.
  induction s as [|c s IH]; simpl; intros H.
  - exists [], []. auto.
  - assert (Hhere : k (c :: s) = Some a ->
      exists w s', c :: s = w ++ s' /\ forallb p w = true /\ k s' = Some a).
    { intros Hk. exists [], (c :: s). auto. }
    destruct (p c) eqn:Hc; [|exact (Hhere H)].
    assert (Hnext : star g p k s = Some a ->
      exists w s', c :: s = w ++ s' /\ forallb p w = true /\ k s' = Some a).
    { intros Hs. apply IH in Hs as (w & s' & -> & Hw & Hk).
      exists (c :: w), s'. simpl. rewrite Hc, Hw. auto. }
    destruct g; simpl in H.
    + destruct (star true p k s) eqn:E; simpl in H.
      * injection H as ->. auto.
      * auto.
    + destruct (k (c :: s)) eqn:E; simpl in H.
      * injection H as ->. auto.
      * auto.
Qed.

Lemma run_sound {A} (r : regex) :
  forall s caps (k : gostring -> list gostring -> option A) a,
    run r s caps k = Some a ->
    exists s' caps', consumes r s caps s' caps' /\ k s' caps' = Some a.
Proof.
  induction r as [c|cl|r1 IH1 r2 IH2|r1 IH1|g cl|g cl|i r1 IH1];
    intros s caps k a H; simpl in *.
  - destruct s as [|c' s]; [discriminate|].
    destruct (Ascii.eqb_spec c' c) as [->|]; [|discriminate]. eauto.
  - destruct s as [|c' s]; [discriminate|].
    destruct (in_class cl c') eqn:Hc; [|discriminate].
    exists s, caps. split; [exists c'; auto | assumption].
  - apply IH1 in H as (s1 & c1 & H1 & H).
    apply IH2 in H as (s2 & c2 & H2 & H). eauto 8.
  - destruct (run r1 s caps k) as [a'|] eqn:E; simpl in H.
    + injection H as ->. apply IH1 in E as (s' & c' & H1 & H). eauto.
    + exists s, caps. auto.
  - apply star_sound in H as (w & s' & -> & Hw & Hk).
    exists s', caps. split; [exists w; auto | assumption].
  - destruct s as [|c s]; [discriminate|].
    destruct (in_class cl c) eqn:Hc; [|discriminate].
    apply star_sound in H as (w & s' & -> & Hw & Hk).
    exists s', caps. split; [|assumption]. exists (c :: w). simpl.
    rewrite Hc, Hw. repeat split; auto; discriminate.
  - apply IH1 in H as (s' & c' & H1 & H).
    exists s', (<[i := consumed s s']> c'). split; [exists c'; auto | assumption].
Qed.

Lemma matchAt_sound (r : regex) (s : gostring) (m : list gostring) :
  matchAt r s = Some m ->
  exists s' caps', consumes r s (replicate (S (ngroups r)) []) s' caps' /\
                   m = <[0 := consumed s s']> caps'.
Proof.
  unfold matchAt. intros H. apply run_sound in H as (s' & caps' & H & E).
  injection E as <-. eauto.
Qed.

(** The match found is the leftmost one. *)
Lemma FindStringSubmatch_leftmost (r : regex) (l : gostring) (m : list gostring) :
  FindStringSubmatch r l = Some m ->
  exists pre s, l = pre ++ s /\ matchAt r s = Some m /\
    forall p1 p2, pre = p1 ++ p2 -> p2 <> [] -> matchAt r (p2 ++ s) = None.
Proof.
  induction l as [|c l IH]; cbn [FindStringSubmatch]; intros H.
  - destruct (matchAt r []) eqn:E; simpl in H; [|discriminate].
    injection H as ->. exists [], []. repeat split; auto.
    intros p1 p2 E' Hne. symmetry in E'. apply app_eq_nil in E' as [_ ->]. congruence.
  - destruct (matchAt r (c :: l)) eqn:E; simpl in H.
    + injection H as ->. exists [], (c :: l). repeat split; auto.
      intros p1 p2 E' Hne. symmetry in E'. apply app_eq_nil in E' as [_ ->]. congruence.
    + apply IH in H as (pre & s & -> & Hm & Hmin).
      exists (c :: pre), s. repeat split; auto.
      intros [|c' p1] p2 E' Hne; simpl in E'.
      * subst p2. exact E.
      * injection E' as -> ->. eauto.
Qed.

(** A lazy repetition stops at the first place where the rest matches. *)
Lemma star_lazy_min {A} p (k : gostring -> option A) s a :
  star false p k s = Some a ->
  exists w s', s = w ++ s' /\ forallb p w = true /\ k s' = Some a /\
    forall w1 w2, w = w1 ++ w2 -> w2 <> [] -> k (w2 ++ s') = None.
Proof.
  induction s as [|c s IH]; simpl; intros H.
  - exists [], []. repeat split; auto.
    intros w1 w2 E Hne. symmetry in E. apply app_eq_nil in E as [_ ->]. congruence.
  - assert (Hhere : k (c :: s) = Some a ->
      exists w s', c :: s = w ++ s' /\ forallb p w = true /\ k s' = Some a /\
        forall w1 w2, w = w1 ++ w2 -> w2 <> [] -> k (w2 ++ s') = None).
    { intros Hk. exists [], (c :: s). repeat split; auto.
      intros w1 w2 E Hne. symmetry in E. apply app_eq_nil in E as [_ ->]. congruence. }
    destruct (p c) eqn:Hc; [|auto].
    destruct (k (c :: s)) as [a'|] eqn:E; simpl in H.
    + injection H as ->. auto.
    + apply IH in H as (w & s' & -> & Hw & Hk & Hmin).
      exists (c :: w), s'. simpl. rewrite Hc, Hw. repeat split; auto.
      intros [|c' w1] w2 E' Hne; simpl in E'.
      * subst w2. exact E.
      * injection E' as -> ->. eauto.
Qed.

(** ** The line pattern *)

Lemma consumed_prefix (s w s' : gostring) : s = w ++ s' -> consumed s s' = w.
Proof. intros ->. apply consumed_app. Qed.

Lemma forallb_notNL (w : gostring) :
  newline ∉ w -> forallb (in_class CAnyNotNL) w = true.
Proof.
  induction w as [|c w IH]; simpl; intros H; [reflexivity|].
  apply not_elem_of_cons in H as [Hc Hw]. rewrite (IH Hw), andb_true_r.
  destruct (Ascii.eqb_spec c newline); [congruence | reflexivity].
Qed.

Ltac list_eq := repeat (simpl; rewrite <- ?app_assoc); reflexivity.

(** Everything after group 1 in [lineRE_pattern]. *)
Lemma lang_lineTail (operands hex : gostring) :
  forallb (in_class CAnyNotNL) operands = true ->
  hex <> [] -> forallb (in_class hexdigit) hex = true ->
  lang (RSeq (RChar " ") (RSeq (RGroup 2 (RStar false CAnyNotNL))
         (RSeq (RChar " ") (RSeq (RChar "/") (RSeq (RChar "/") (RSeq (RChar " ")
         (RPlus true hexdigit)))))))
       (space :: operands ++ str " // " ++ hex).
Proof.
  intros Ho Hne Hh. simpl.
  exists [space], (operands ++ str " // " ++ hex). split; [reflexivity|].
  split; [reflexivity|].
  exists operands, (str " // " ++ hex). split; [reflexivity|].
  split; [assumption|].
  exists [space], ("/" :: "/" :: " " :: hex). split; [reflexivity|].
  split; [reflexivity|].
  exists ["/"], ("/" :: " " :: hex). split; [reflexivity|].
  split; [reflexivity|].
  exists ["/"], (" " :: hex). split; [reflexivity|].
  split; [reflexivity|].
  exists [space], hex. auto.
Qed.

Lemma lang_lineRE (opc operands hex : gostring) :
  forallb (in_class CAnyNotNL) opc = true ->
  forallb (in_class CAnyNotNL) operands = true ->
  hex <> [] -> forallb (in_class hexdigit) hex = true ->
  lang lineRE_pattern (tab :: opc ++ space :: operands ++ str " // " ++ hex).
Proof.
  intros Hopc Ho Hne Hh.
  exists [tab], (opc ++ space :: operands ++ str " // " ++ hex).
  split; [reflexivity|]. split; [reflexivity|].
  exists opc, (space :: operands ++ str " // " ++ hex).
  split; [reflexivity|]. split; [assumption|].
  apply lang_lineTail; assumption.
Qed.

(** What a match of [lineRE_pattern] at the start of [s] looks like. *)
Lemma matchAt_lineRE (s : gostring) (m : list gostring) :
  matchAt lineRE_pattern s = Some m ->
  exists opc operands hex post,
    s = (tab :: opc ++ space :: operands ++ str " // " ++ hex) ++ post /\
    m = [tab :: opc ++ space :: operands ++ str " // " ++ hex; opc; operands] /\
    forallb (in_class CAnyNotNL) opc = true /\
    forallb (in_class CAnyNotNL) operands = true /\
    hex <> [] /\ forallb (in_class hexdigit) hex = true /\
    (space ∉ opc).
Proof.
  intros H. destruct s as [|c s1]; [discriminate|].
  set (tail := RSeq (RChar " ") (RSeq (RGroup 2 (RStar false CAnyNotNL))
         (RSeq (RChar " ") (RSeq (RChar "/") (RSeq (RChar "/") (RSeq (RChar " ")
         (RPlus true hexdigit))))))).
  set (k0 := fun (s' : gostring) (caps : list gostring) =>
               Some (<[0 := consumed (c :: s1) s']> caps)).
  assert (E : matchAt lineRE_pattern (c :: s1) =
              if Ascii.eqb c tab then
                star false (in_class CAnyNotNL)
                  (fun s' => run tail s' (<[1 := consumed s1 s']> [[]; []; []]) k0) s1
              else None) by reflexivity.
  rewrite E in H. clear E.
  destruct (Ascii.eqb_spec c tab) as [->|]; [|discriminate].
  apply star_lazy_min in H as (opc & s2 & -> & Hopc & HK & Hmin).
  rewrite consumed_app in HK.
  pose proof HK as HK'.
  apply run_sound in HK' as (s' & caps' & Hc & Hk).
  subst tail. simpl in Hc.
  destruct Hc as (sA & cA & [-> ->] & sB & cB & (c1 & (w2 & -> & Hw2 & ->) & ->)
                  & sC & cC & [-> ->] & sD & cD & [-> ->] & sE & cE & [-> ->]
                  & sF & cF & [-> ->] & (w3 & -> & Hne & Hw3 & ->)).
  rewrite consumed_app in Hk. unfold k0 in Hk. injection Hk as <-.
  exists opc, w2, w3, s'.
  assert (Es : tab :: opc ++ " " :: w2 ++ " " :: "/" :: "/" :: " " :: w3 ++ s' =
               (tab :: opc ++ space :: w2 ++ str " // " ++ w3) ++ s') by list_eq.
  split; [exact Es|].
  split; [rewrite (consumed_prefix _ _ _ Es); reflexivity|].
  repeat split; try assumption.
  intros Hin. apply list_elem_of_split in Hin as (a & b & ->).
  specialize (Hmin a (space :: b) eq_refl ltac:(discriminate)).
  assert (Hs : is_Some (run (RSeq (RChar " ") (RSeq (RGroup 2 (RStar false CAnyNotNL))
         (RSeq (RChar " ") (RSeq (RChar "/") (RSeq (RChar "/") (RSeq (RChar " ")
         (RPlus true hexdigit)))))))
         ((space :: b) ++ " " :: w2 ++ " " :: "/" :: "/" :: " " :: w3 ++ s')
         (<[1 := consumed ((a ++ space :: b) ++ " " :: w2 ++ " " :: "/" :: "/" :: " " :: w3 ++ s')
                   ((space :: b) ++ " " :: w2 ++ " " :: "/" :: "/" :: " " :: w3 ++ s')]>
            [[]; []; []])
         k0)).
  { apply run_is_Some.
    - intros ? ? ? _. unfold k0. eauto.
    - exists (space :: (b ++ space :: w2) ++ str " // " ++ w3), s'.
      split; [list_eq|]. split; [|unfold k0; eauto].
      apply lang_lineTail; try assumption.
      rewrite forallb_app in Hopc. apply andb_true_iff in Hopc as [_ Hb].
      simpl in Hb. rewrite forallb_app. simpl. rewrite Hw2, Hb. reflexivity. }
  rewrite Hmin in Hs. destruct Hs; discriminate.
Qed.


(** ** The fixture scanner *)

Lemma Split_no_sep (sep : ascii) (s : gostring) :
  Forall (fun l => sep ∉ l) (Split sep s).
Proof.
  induction s as [|c s IH]; simpl.
  - constructor; [apply not_elem_of_nil | constructor].
  - destruct (Ascii.eqb_spec c sep) as [->|Hne].
    + constructor; [apply not_elem_of_nil | assumption].
    + destruct (Split sep s) as [|piece rest].
      * constructor; [|constructor].
        intros H. apply list_elem_of_singleton in H. congruence.
      * inversion IH as [|? ? Hp Hr]; subst. constructor; [|assumption].
        intros H. apply elem_of_cons in H as [H|H]; [congruence | contradiction].
Qed.

Lemma skipHeader_spec (ls : list gostring) :
  match skipHeader ls with
  | Panic => Forall (fun l => startsWithTab l = false) ls
  | Ok ls' =>
      exists hd l rest, ls = hd ++ ls' /\ ls' = l :: rest /\
        Forall (fun l => startsWithTab l = false) hd /\ startsWithTab l = true
  end.
Proof.
  induction ls as [|l ls IH]; simpl; [constructor|].
  destruct l as [|c l].
  - destruct (skipHeader ls) as [ls'|].
    + destruct IH as (hd & l0 & rest & -> & -> & Hhd & Hl).
      exists ([] :: hd), l0, rest. repeat split; auto.
    + constructor; auto.
  - destruct (Ascii.eqb c tab) eqn:Hc.
    + exists [], (c :: l), ls. repeat split; auto.
    + destruct (skipHeader ls) as [ls'|].
      * destruct IH as (hd & l0 & rest & -> & -> & Hhd & Hl).
        exists ((c :: l) :: hd), l0, rest. repeat split; auto.
      * constructor; auto.
Qed.

Section Scanner.
Context {lib : GoLib}.

Lemma init_ready (s0 s : testFileScanner) :
  err s0 = None ->
  testFileScanner_init s0 = Ok (s, None) -> scannerReady s.
Proof.
  unfold testFileScanner_init. intros He H.
  destruct (ReadFile (filename s0)) as [data|e]; [|discriminate].
  pose proof (skipHeader_spec (Split newline data)) as Hs.
  destruct (skipHeader (Split newline data)) as [ls|]; [|discriminate].
  injection H as <-. destruct Hs as (hd & l & rest & E & -> & _ & _).
  unfold scannerReady; simpl. split; [reflexivity|]. split.
  - pose proof (Split_no_sep newline data) as Hn. rewrite E in Hn.
    apply Forall_app in Hn as [_ Hn]. exact Hn.
  - rewrite He. exact I.
Qed.

Lemma scan_ready (s s' : testFileScanner) (b : bool) :
  scannerReady s -> scan s = Ok (b, s') -> scannerReady s'.
Proof.
  intros (Hre & Hnl & He) H. unfold scan in H.
  destruct (err s) as [e|] eqn:Ee.
  { injection H as <- <-. unfold scannerReady. rewrite Ee. auto. }
  destruct (lines s) as [|l rest] eqn:El.
  { injection H as <- <-. unfold scannerReady; simpl. rewrite El. auto. }
  destruct (decide (l = sentinel)) as [->|Hsent].
  { injection H as <- <-. unfold scannerReady. rewrite Ee, El. auto. }
  rewrite Hre in H.
  destruct (FindStringSubmatch lineRE_pattern l) as [m|] eqn:Em.
  - destruct m as [|m0 [|m1 [|m2 m]]]; try discriminate.
    injection H as <- <-. unfold scannerReady; simpl.
    inversion Hnl; subst. auto.
  - injection H as <- <-. unfold scannerReady; simpl. rewrite El. auto.
Qed.

(** Every state reached by [init] on a fresh scanner followed by calls of
    [scan] is one of the states [scannerReady] describes. *)
Lemma reachable_ready (s : testFileScanner) : reachable s -> scannerReady s.
Proof.
  induction 1 as [file s H|s b s' _ IH H].
  - eapply init_ready; [|exact H]. reflexivity.
  - eapply scan_ready; eassumption.
Qed.

End Scanner.

Section ScannerClaims.
Context {lib : GoLib}.

Lemma sentinel_no_match : FindStringSubmatch lineRE_pattern sentinel = None.
Proof. vm_compute. reflexivity. Qed.

Lemma skipHeader_app (hd : list gostring) (l : gostring) (rest : list gostring) :
  Forall (fun l => startsWithTab l = false) hd ->
  startsWithTab l = true ->
  skipHeader (hd ++ l :: rest) = Ok (l :: rest).
Proof.
  intros Hhd Hl. induction Hhd as [|h hd Hh _ IH]; simpl.
  - destruct l as [|c l]; [discriminate|]. simpl in Hl. rewrite Hl. reflexivity.
  - destruct h as [|c h]; [exact IH|]. simpl in Hh. rewrite Hh. exact IH.
Qed.

(** When the fixture has a line that begins with a tab, [init] keeps the
    lines from the first such line on. *)
Lemma init_skips_header (s : testFileScanner) (data : gostring)
    (hd : list gostring) (l : gostring) (rest : list gostring) :
  ReadFile (filename s) = inl data ->
  Split newline data = hd ++ l :: rest ->
  Forall (fun l => startsWithTab l = false) hd ->
  startsWithTab l = true ->
  testFileScanner_init s =
    Ok ({| filename := filename s; lineRE := Some lineRE_pattern;
           lines := l :: rest; line := line s; err := err s |}, None).
Proof.
  intros Hr Hs Hhd Hl. unfold testFileScanner_init.
  rewrite Hr, Hs, (skipHeader_app _ _ _ Hhd Hl). reflexivity.
Qed.

(** C3: in a state with no recorded error, [scan] ends the sequence
    without recording an error exactly when the current line is the
    sentinel (a tab followed by RET); when no line is left, [scan] ends the
    sequence and records the unexpected-EOF error, which starts with the
    file name. *)
Theorem scan_stops_at_sentinel (s : testFileScanner) :
  err s = None ->
  ((exists s', scan s = Ok (false, s') /\ err s' = None) <->
   (exists rest, lines s = sentinel :: rest)) /\
  (lines s = [] ->
   scan s = Ok (false, withErr s (filename s ++
                  str ": unexpected EOF (expected RET instruction)"))).
Proof.
  intros He. unfold scan. rewrite He. split.
  - destruct (lines s) as [|l rest].
    + split.
      * intros (s' & H & He'). injection H as <-. discriminate.
      * intros (rest & H). discriminate.
    + destruct (decide (l = sentinel)) as [->|Hne].
      * split; [eauto|]. intros _. exists s. auto.
      * split; [|intros (r & H); congruence].
        intros (s' & H & He').
        destruct (lineRE s) as [re|]; [|discriminate].
        destruct (FindStringSubmatch re l) as [[|m0 [|m1 [|m2 m]]]|];
          try discriminate.
        injection H as <-. discriminate.
  - intros ->. reflexivity.
Qed.

(** C4: when the current line is not the sentinel and the line pattern
    finds no match in it, [scan] returns false, consumes nothing, and the
    recorded error holds the file name and the quoted line. *)
Theorem scan_rejects_unmatched_line (s : testFileScanner)
    (l : gostring) (rest : list gostring) :
  scannerReady s ->
  lines s = l :: rest ->
  l <> sentinel ->
  FindStringSubmatch lineRE_pattern l = None ->
  exists s',
    scan s = Ok (false, s') /\
    err s' = Some (filename s ++ str ": unexpected " ++ Quote l ++
                   str " line (does not match pattern)") /\
    lines s' = l :: rest /\ filename s' = filename s.
Proof.
  intros (Hre & _ & He) Hl Hne Hm. unfold scan.
  destruct (err s) as [e|] eqn:Ee.
  - rewrite Hl in He. destruct He as (_ & _ & ->).
    exists s. rewrite Ee. auto.
  - rewrite Hl, Hre, Hm. destruct (decide (l = sentinel)); [contradiction|].
    eexists. split; [reflexivity|]. simpl. auto.
Qed.


(** C10: for a readable fixture, [init] panics exactly when no line of
    the file begins with a tab, and returns (then without an error) exactly
    when some line does. *)
Theorem init_panics_without_tab_line (s : testFileScanner) (data : gostring) :
  ReadFile (filename s) = inl data ->
  (testFileScanner_init s = Panic <->
   Forall (fun l => startsWithTab l = false) (Split newline data)) /\
  ((exists s', testFileScanner_init s = Ok (s', None)) <->
   Exists (fun l => startsWithTab l = true) (Split newline data)) /\
  (forall s' e, testFileScanner_init s <> Ok (s', Some e)).
Proof.
  intros Hr. unfold testFileScanner_init. rewrite Hr.
  pose proof (skipHeader_spec (Split newline data)) as Hs.
  destruct (skipHeader (Split newline data)) as [ls|].
  - destruct Hs as (hd & l & rest & E & -> & Hhd & Hl).
    assert (Hex : Exists (fun l => startsWithTab l = true) (Split newline data)).
    { rewrite E. apply Exists_app. right. constructor. exact Hl. }
    split; [|split].
    + split; [discriminate|]. intros Hall.
      apply Exists_exists in Hex as (x & Hx & Hxt).
      rewrite Forall_forall in Hall. rewrite (Hall x Hx) in Hxt. discriminate.
    + split; [auto | eauto].
    + intros s' e H. discriminate.
  - split; [|split].
    + split; auto.
    + split; [intros (s' & H); discriminate|].
      intros Hex. apply Exists_exists in Hex as (x & Hx & Hxt).
      rewrite Forall_forall in Hs. rewrite (Hs x Hx) in Hxt. discriminate.
    + intros s' e H. discriminate.
Qed.

End ScannerClaims.

(** C6 fails on the code: a readable fixture without any line that begins
    with a tab (here the empty file) makes [init] panic instead of leaving
    a first line that begins with a tab. *)
Theorem init_of_empty_fixture_panics :
  @testFileScanner_init exampleGo
    (newScanner (str "testdata/empty.s")) = Panic.
Proof. vm_compute. reflexivity. Qed.

Lemma scan_stops_at_sentinel_witness :
  err (exampleScanner [sentinel]) = None /\
  @scan exampleGo (exampleScanner [sentinel]) =
    Ok (false, exampleScanner [sentinel]) /\
  @scan exampleGo (exampleScanner []) =
    Ok (false, withErr (exampleScanner [])
      (str "testdata/avx512f.s: unexpected EOF (expected RET instruction)")).
Proof.
  pose proof (@scan_stops_at_sentinel exampleGo
                (exampleScanner [sentinel]) eq_refl) as [_ _].
  pose proof (@scan_stops_at_sentinel exampleGo
                (exampleScanner []) eq_refl) as [_ H].
  split; [reflexivity|]. split; [reflexivity|]. exact (H eq_refl).
Defined.

(** ** The operand patterns *)

Lemma nonempty_ne (s : gostring) : nonempty s = true -> s <> [].
Proof. destruct s; [discriminate | discriminate]. Qed.

Lemma forallb_excludes (p : ascii -> bool) (c : ascii) (w : gostring) :
  p c = false -> forallb p w = true -> c ∉ w.
Proof.
  intros Hc Hw Hin. apply list_elem_of_In in Hin.
  rewrite forallb_forall in Hw. rewrite (Hw _ Hin) in Hc. discriminate.
Qed.

(** Two ways of cutting a string at the first occurrence of a byte agree. *)
Lemma first_occurrence (c : ascii) (x y x' y' : gostring) :
  c ∉ x -> c ∉ x' -> x ++ c :: y = x' ++ c :: y' -> x = x' /\ y = y'.
Proof.
  revert x'. induction x as [|a x IH]; intros [|a' x'] Hx Hx' E; simpl in E.
  - injection E as ->. auto.
  - injection E as <- _. exfalso. apply Hx'. left.
  - injection E as -> _. exfalso. apply Hx. left.
  - injection E as -> E.
    apply not_elem_of_cons in Hx as [_ Hx]. apply not_elem_of_cons in Hx' as [_ Hx'].
    destruct (IH _ Hx Hx' E) as [-> ->]. auto.
Qed.

(** A byte that only ends a string is followed by nothing. *)
Lemma last_occurrence (c : ascii) (x y z : gostring) :
  c ∉ x -> x ++ [c] = y ++ c :: z -> z = [].
Proof.
  revert y. induction x as [|a x IH]; intros [|a' y] Hx E; simpl in E.
  - injection E as <-. reflexivity.
  - injection E as _ E. destruct y; discriminate.
  - injection E as -> _. exfalso. apply Hx. left.
  - injection E as _ E. apply not_elem_of_cons in Hx as [_ Hx]. eauto.
Qed.

Lemma lang_dispRE_render (d : option (bool * gostring)) :
  match d with
  | None => True
  | Some (_, ds) => nonempty ds && forallb is_digit ds = true
  end ->
  lang dispRE (renderDisp d).
Proof.
  destruct d as [[neg ds]|]; simpl; [|auto].
  intros H. apply andb_true_iff in H as [Hne Hds]. right.
  exists (if neg then ["-"] else []), ds. split; [reflexivity|].
  split; [destruct neg; auto|]. split; [apply nonempty_ne; assumption | assumption].
Qed.

Lemma lang_dispRE_chars (c : ascii) (w : gostring) :
  Ascii.eqb c "-" = false -> is_digit c = false -> lang dispRE w -> c ∉ w.
Proof.
  intros Hm Hd [->|(w1 & w2 & -> & Hw1 & _ & Hw2)]; [apply not_elem_of_nil|].
  intros Hin. apply elem_of_app in Hin as [Hin|Hin].
  - destruct Hw1 as [->| ->]; [inversion Hin|].
    apply list_elem_of_singleton in Hin. subst c. discriminate.
  - exact (forallb_excludes _ _ _ Hd Hw2 Hin).
Qed.

Lemma render_memArgRE (m : memOperandText) :
  wfOperand m = true -> lang memArgRE_pattern (renderOperand m).
Proof.
  unfold wfOperand, renderOperand. intros H.
  apply andb_true_iff in H as [H Hidx]. apply andb_true_iff in H as [Hd Hb].
  apply andb_true_iff in Hb as [Hbne Hb].
  exists (renderDisp (displacement m)),
    ("(" :: baseReg m ++ ")" :: match indexScale m with
                               | None => []
                               | Some (idx, sc) => "(" :: idx ++ ["*"; sc; ")"]
                               end).
  split; [reflexivity|]. split.
  { apply lang_dispRE_render. destruct (displacement m) as [[? ?]|]; auto. }
  exists ["("], (baseReg m ++ ")" :: match indexScale m with
                               | None => []
                               | Some (idx, sc) => "(" :: idx ++ ["*"; sc; ")"]
                               end).
  split; [reflexivity|]. split; [reflexivity|].
  eexists (baseReg m), _. split; [reflexivity|].
  split; [split; [apply nonempty_ne; assumption | assumption]|].
  eexists [")"], _. split; [reflexivity|]. split; [reflexivity|].
  destruct (indexScale m) as [[idx sc]|]; [|left; reflexivity].
  apply andb_true_iff in Hidx as [Hidx Hsc].
  apply andb_true_iff in Hidx as [Hine Hidx].
  right. exists ["("], (idx ++ ["*"; sc; ")"]). split; [reflexivity|].
  split; [reflexivity|].
  exists idx, ["*"; sc; ")"]. split; [reflexivity|].
  split; [split; [apply nonempty_ne; assumption | assumption]|].
  exists ["*"], [sc; ")"]. split; [reflexivity|]. split; [reflexivity|].
  exists [sc], [")"]. split; [reflexivity|]. split; [|reflexivity].
  exists sc. auto.
Qed.

Lemma render_vmemArgRE (m : memOperandText) :
  wfOperand m = true -> indexIsVectorReg m = true ->
  lang vmemArgRE_pattern (renderOperand m).
Proof.
  unfold wfOperand, indexIsVectorReg, renderOperand. intros H Hv.
  apply andb_true_iff in H as [H Hidx]. apply andb_true_iff in H as [Hd Hb].
  apply andb_true_iff in Hb as [Hbne Hb].
  destruct (indexScale m) as [[[|v ds] sc]|]; try discriminate.
  apply andb_true_iff in Hv as [Hv Hds]. apply andb_true_iff in Hv as [Hv Hdne].
  apply andb_true_iff in Hidx as [_ Hsc].
  eexists (renderDisp (displacement m)), _.
  split; [reflexivity|]. split.
  { apply lang_dispRE_render. destruct (displacement m) as [[? ?]|]; auto. }
  eexists ["("], _. split; [reflexivity|]. split; [reflexivity|].
  eexists (baseReg m), _. split; [reflexivity|].
  split; [split; [apply nonempty_ne; assumption | assumption]|].
  eexists [")"], _. split; [reflexivity|]. split; [reflexivity|].
  eexists ["("], _. split; [reflexivity|]. split; [reflexivity|].
  eexists [v], _. split; [reflexivity|]. split; [exists v; auto|].
  exists ds, ["*"; sc; ")"]. split; [reflexivity|].
  split; [split; [apply nonempty_ne; assumption | assumption]|].
  exists ["*"], [sc; ")"]. split; [reflexivity|]. split; [reflexivity|].
  exists [sc], [")"]. split; [reflexivity|]. split; [|reflexivity].
  exists sc. auto.
Qed.

Lemma vmemArgRE_in_render (m : memOperandText) (pre w post : gostring) :
  wfOperand m = true ->
  renderOperand m = pre ++ w ++ post ->
  lang vmemArgRE_pattern w ->
  indexIsVectorReg m = true.
Proof.
  unfold wfOperand, indexIsVectorReg, renderOperand. intros H E Hw.
  apply andb_true_iff in H as [H Hidx]. apply andb_true_iff in H as [Hd Hb].
  apply andb_true_iff in Hb as [_ Hb].
  destruct Hw as (w1 & ? & -> & Hw1 & ? & ? & -> & -> & w5 & ? & -> & [_ Hw5]
                  & ? & ? & -> & -> & ? & ? & -> & -> & ? & ? & -> & (v & -> & Hv)
                  & w13 & ? & -> & [Hne13 Hw13] & ? & ? & -> & -> & ? & ?
                  & -> & (sc & -> & Hsc) & ->).
  fold (renderDisp (displacement m)) in E. simpl in E.
  set (D := renderDisp (displacement m)) in *.
  assert (HD : lang dispRE D).
  { apply lang_dispRE_render. destruct (displacement m) as [[? ?]|]; auto. }
  assert (Hleft : ")" ∉ D ++ "(" :: baseReg m).
  { intros Hin. apply elem_of_app in Hin as [Hin|Hin].
    - exact (lang_dispRE_chars ")" D eq_refl eq_refl HD Hin).
    - apply elem_of_cons in Hin as [Hin|Hin]; [discriminate|].
      exact (forallb_excludes is_word ")" _ eq_refl Hb Hin). }
  assert (Hmid : ")" ∉ w1 ++ "(" :: w5).
  { intros Hin. apply elem_of_app in Hin as [Hin|Hin].
    - exact (lang_dispRE_chars ")" w1 eq_refl eq_refl Hw1 Hin).
    - apply elem_of_cons in Hin as [Hin|Hin]; [discriminate|].
      exact (forallb_excludes is_word ")" _ eq_refl Hw5 Hin). }
  assert (Hsfx : forall idx sc', forallb is_word idx = true -> isScale sc' = true ->
            ")" ∉ "(" :: idx ++ ["*"; sc']).
  { intros idx sc' Hi Hs Hin.
    apply elem_of_cons in Hin as [Hin|Hin]; [discriminate|].
    apply elem_of_app in Hin as [Hin|Hin].
    - exact (forallb_excludes is_word ")" _ eq_refl Hi Hin).
    - apply elem_of_cons in Hin as [Hin|Hin]; [discriminate|].
      apply list_elem_of_singleton in Hin. subst sc'. discriminate. }
  assert (E1 : (D ++ "(" :: baseReg m) ++ ")" ::
               match indexScale m with
               | None => []
               | Some (idx, sc') => "(" :: idx ++ ["*"; sc'; ")"]
               end =
               (pre ++ w1 ++ "(" :: w5) ++ ")" :: ("(" :: v :: w13 ++ "*" :: sc :: ")" :: post)).
  { rewrite <- !app_assoc. simpl. rewrite E. list_eq. }
  destruct (decide (")" ∈ pre)) as [Hin|Hpre].
  - exfalso. apply list_elem_of_split_l in Hin as (p1 & p2 & -> & Hp1).
    assert (E2 : (D ++ "(" :: baseReg m) ++ ")" ::
               match indexScale m with
               | None => []
               | Some (idx, sc') => "(" :: idx ++ ["*"; sc'; ")"]
               end =
               p1 ++ ")" :: ((p2 ++ w1 ++ "(" :: w5) ++ ")" ::
                              ("(" :: v :: w13 ++ "*" :: sc :: ")" :: post))).
    { rewrite E1. list_eq. }
    apply first_occurrence in E2 as [_ E2]; [|assumption|assumption].
    destruct (indexScale m) as [[idx sc']|].
    + apply andb_true_iff in Hidx as [Hidx Hsc'].
      apply andb_true_iff in Hidx as [_ Hidx].
      assert (E3 : ("(" :: idx ++ ["*"; sc']) ++ [")"] =
                   (p2 ++ w1 ++ "(" :: w5) ++ ")" ::
                              ("(" :: v :: w13 ++ "*" :: sc :: ")" :: post)).
      { rewrite <- E2. list_eq. }
      apply last_occurrence in E3; [discriminate|].
      apply Hsfx; assumption.
    + destruct (p2 ++ w1 ++ "(" :: w5); discriminate.
  - apply first_occurrence in E1 as [_ E1]; [|assumption|].
    2:{ intros Hin. apply elem_of_app in Hin as [Hin|Hin]; [contradiction|].
        exact (Hmid Hin). }
    destruct (indexScale m) as [[idx sc']|]; [|discriminate].
    apply andb_true_iff in Hidx as [Hidx Hsc'].
    apply andb_true_iff in Hidx as [_ Hidx].
    injection E1 as E1.
    assert (E4 : idx ++ "*" :: [sc'; ")"] = (v :: w13) ++ "*" :: (sc :: ")" :: post)).
    { rewrite E1. reflexivity. }
    apply first_occurrence in E4 as [-> _].
    + change (in_class (COneOf ["X"; "Y"; "Z"]) v) with (isXYZ v) in Hv.
      change (forallb (in_class CDigit) w13) with (forallb is_digit w13) in Hw13.
      rewrite Hv, Hw13. destruct w13; [congruence | reflexivity].
    + exact (forallb_excludes is_word "*" _ eq_refl Hidx).
    + intros Hin. apply elem_of_cons in Hin as [Hin|Hin].
      * subst v. discriminate.
      * exact (forallb_excludes (in_class CDigit) "*" _ eq_refl Hw13 Hin).
Qed.

(** C2, as the code has it: a rendered memory operand matches [memArgRE];
    it is a VectorMemoryOperand exactly when its index register is X, Y or
    Z followed by decimal digits, otherwise a MemoryOperand; a string that
    neither pattern matches is a PlainOperand; and the four operands of the
    specification are classified as it says. *)
Theorem classify_by_operand_patterns :
  (forall m, wfOperand m = true ->
     MatchString memArgRE_pattern (renderOperand m) = true /\
     classify (renderOperand m) =
       if indexIsVectorReg m then VectorMemoryOperand else MemoryOperand) /\
  (forall arg, classify arg = PlainOperand <->
     MatchString memArgRE_pattern arg = false /\
     MatchString vmemArgRE_pattern arg = false) /\
  classify (str "(AX)") = MemoryOperand /\
  classify (str "8(AX)(X1*4)") = VectorMemoryOperand /\
  classify (str "8(AX)(R1*4)") = MemoryOperand /\
  classify (str "AX") = PlainOperand.
Proof.
  split; [|split].
  - intros m Hwf.
    assert (Hmem : MatchString memArgRE_pattern (renderOperand m) = true).
    { apply MatchString_true. exists [], (renderOperand m), [].
      split; [rewrite app_nil_r; reflexivity|]. apply render_memArgRE. assumption. }
    split; [assumption|]. unfold classify. rewrite Hmem.
    destruct (indexIsVectorReg m) eqn:Hv.
    + assert (Hvm : MatchString vmemArgRE_pattern (renderOperand m) = true).
      { apply MatchString_true. exists [], (renderOperand m), [].
        split; [rewrite app_nil_r; reflexivity|]. apply render_vmemArgRE; assumption. }
      rewrite Hvm. reflexivity.
    + destruct (MatchString vmemArgRE_pattern (renderOperand m)) eqn:Hvm;
        [|reflexivity].
      apply MatchString_true in Hvm as (pre & w & post & E & Hw).
      rewrite (vmemArgRE_in_render m pre w post Hwf E Hw) in Hv. discriminate.
  - intros arg. unfold classify.
    destruct (MatchString vmemArgRE_pattern arg), (MatchString memArgRE_pattern arg);
      split; try discriminate; auto; intros [? ?]; discriminate.
  - repeat split; vm_compute; reflexivity.
Qed.

(** C2 as stated fails: the operand [(AX)(XA*4)] has the index-times-scale
    suffix and an index register that begins with X, and is a
    MemoryOperand, not a VectorMemoryOperand. *)
Lemma index_beginning_with_X_is_not_vector :
  wfOperand exampleOperand = true /\
  indexBeginsXYZ exampleOperand = true /\
  renderOperand exampleOperand = str "(AX)(XA*4)" /\
  classify (renderOperand exampleOperand) = MemoryOperand.
Proof. repeat split; vm_compute; reflexivity. Qed.

(** ** The generated driver *)

Lemma string_of_uint_digits (d : Decimal.uint) :
  forallb is_digit (str (NilEmpty.string_of_uint d)) = true.
Proof. induction d; simpl; auto. Qed.

Lemma fmt_d_digits (n : N) : forallb is_digit (fmt_d n) = true.
Proof.
  unfold fmt_d, NilZero.string_of_uint.
  destruct (N.to_uint n); try apply string_of_uint_digits. reflexivity.
Qed.

Lemma fmt_d_parses (n : N) :
  match NilZero.uint_of_string (string_of_list_ascii (fmt_d n)) with
  | Some d => Some (N.of_uint d)
  | None => None
  end = Some n.
Proof.
  unfold fmt_d, str. rewrite string_of_list_ascii_of_string.
  destruct (N.to_uint n) as [| | | | | | | | | |] eqn:E;
    try (rewrite NilZero.usu by discriminate; rewrite <- E;
         rewrite DecimalN.Unsigned.of_to; reflexivity).
  destruct n as [|p]; simpl in E; [discriminate|].
  exfalso. revert E. apply DecimalPos.Unsigned.to_uint_nonnil.
Qed.

Lemma leadingDigits_app (ds rest : gostring) :
  forallb is_digit ds = true ->
  match rest with [] => True | c :: _ => is_digit c = false end ->
  leadingDigits (ds ++ rest) = ds.
Proof.
  intros Hds Hrest. induction ds as [|c ds IH]; simpl.
  - destruct rest as [|c rest]; [reflexivity|]. simpl. rewrite Hrest. reflexivity.
  - simpl in Hds. apply andb_true_iff in Hds as [Hc Hds].
    rewrite Hc, (IH Hds). reflexivity.
Qed.

Lemma mainFileContents_eq (c : collector) :
  mainFileContents c = driverHead ++ fmt_d (loopCount c) ++ driverTail.
Proof. reflexivity. Qed.

Lemma loopBound_driver (n : N) :
  loopBound (driverHead ++ fmt_d n ++ driverTail) = Some n.
Proof.
  unfold loopBound, numberAfter.
  assert (E : after (str "for i := 0; i < ")
                (driverHead ++ fmt_d n ++ driverTail) =
              Some (fmt_d n ++ driverTail)) by reflexivity.
  rewrite E, leadingDigits_app.
  - apply fmt_d_parses.
  - apply fmt_d_digits.
  - reflexivity.
Qed.

(** ** Flag validation and the steps of [main] *)

Section Validation.
Context {lib : GoLib} {os : OSSteps}.

Lemma firstUnavailable_None (c : collector) (exts : list gostring) :
  firstUnavailable c exts = None <->
  Forall (fun e => available c e = true) exts.
Proof.
  induction exts as [|e exts IH]; simpl.
  - split; [constructor | reflexivity].
  - destruct (available c e) eqn:Ha.
    + rewrite IH. split; [constructor; assumption|].
      intros H. inversion H; assumption.
    + split; [discriminate|]. intros H. inversion H; congruence.
Qed.

Lemma validateFlags_None (c : collector) :
  validateFlags c = None <->
  Forall (fun e => available c e = true) (extensions c) /\
  extensions c <> [] /\ perfTool c <> [] /\
  iformSpanSize c <> 0%N /\ loopCount c <> 0%N /\ perfRounds c <> 0%N.
Proof.
  unfold validateFlags. rewrite <- firstUnavailable_None.
  destruct (firstUnavailable c (extensions c)) as [e|].
  { split; [discriminate | intros [H _]; discriminate]. }
  destruct (extensions c) as [|e exts]; simpl.
  { split; [discriminate | intros (_ & H & _); congruence]. }
  destruct (perfTool c) as [|p tool]; simpl.
  { split; [discriminate | intros (_ & _ & H & _); congruence]. }
  destruct (N.eqb_spec (iformSpanSize c) 0) as [E1|E1].
  { split; [discriminate | intros (_ & _ & _ & H & _); congruence]. }
  destruct (N.eqb_spec (loopCount c) 0) as [E2|E2].
  { split; [discriminate | intros (_ & _ & _ & _ & H & _); congruence]. }
  destruct (N.eqb_spec (perfRounds c) 0) as [E3|E3].
  { split; [discriminate | intros (_ & _ & _ & _ & _ & H); congruence]. }
  split; [|reflexivity]. intros _. repeat split; auto; discriminate.
Qed.

Lemma runSteps_app (l1 l2 : list step) (st : runState) :
  runSteps (l1 ++ l2) st =
  match runSteps l1 st with
  | Finished st' => runSteps l2 st'
  | r => r
  end.
Proof.
  revert st. induction l1 as [|s l1 IH]; intros st; simpl; [reflexivity|].
  destruct (fn s st) as [[st' [e|]]|]; auto.
Qed.

(** [validateFlags] returns an error exactly when a requested extension
    is not marked in [availableExt], or no extension is requested, or the
    perf tool name is empty, or one of iformSpanSize, loopCount,
    perfRounds is zero, and returns nil otherwise.  In [main] its error is
    fatal: the run ends there, whatever the probing steps (prepare work
    dir, visit work dir, collect counters) would do. *)
Lemma validateFlags_decision :
  (forall c : collector,
     is_Some (validateFlags c) <->
     Exists (fun e => available c e = false) (extensions c) \/
     extensions c = [] \/ perfTool c = [] \/
     iformSpanSize c = 0%N \/ loopCount c = 0%N \/ perfRounds c = 0%N) /\
  (forall c : collector,
     validateFlags c = None <->
     ~ (Exists (fun e => available c e = false) (extensions c) \/
        extensions c = [] \/ perfTool c = [] \/
        iformSpanSize c = 0%N \/ loopCount c = 0%N \/ perfRounds c = 0%N)) /\
  (forall (st st' : runState) (e : gostring),
     runSteps (take 4 steps) st = Finished st' ->
     validateFlags (fst st') = Some e ->
     main st = Fatal (str "validate command-line args: " ++ e) st').
Proof.
  assert (Hnone : forall c : collector,
     validateFlags c = None <->
     ~ (Exists (fun e => available c e = false) (extensions c) \/
        extensions c = [] \/ perfTool c = [] \/
        iformSpanSize c = 0%N \/ loopCount c = 0%N \/ perfRounds c = 0%N)).
  { intros c. rewrite validateFlags_None. split.
    - intros (Ha & H1 & H2 & H3 & H4 & H5) [Hex|[H|[H|[H|[H|H]]]]]; try congruence.
      apply Exists_exists in Hex as (x & Hx & Hf).
      rewrite Forall_forall in Ha. rewrite (Ha x Hx) in Hf. discriminate.
    - intros H. repeat split; try (intros E; apply H; auto 10).
      apply Forall_forall. intros x Hx.
      destruct (available c x) eqn:Ha; [reflexivity|].
      exfalso. apply H. left. apply Exists_exists. eauto. }
  split; [|split; [exact Hnone|]].
  - intros c. split.
    + intros Hs.
      destruct (decide (Exists (fun e => available c e = false) (extensions c)))
        as [?|Hn]; [auto|].
      destruct (extensions c) as [|x xs] eqn:Ee; [auto|].
      destruct (perfTool c) as [|p ps] eqn:Ep; [auto|].
      destruct (N.eq_dec (iformSpanSize c) 0%N) as [?|H3]; [auto 10|].
      destruct (N.eq_dec (loopCount c) 0%N) as [?|H4]; [auto 10|].
      destruct (N.eq_dec (perfRounds c) 0%N) as [?|H5]; [auto 10|].
      exfalso. assert (Hv : validateFlags c = None).
      { apply Hnone. rewrite Ee, Ep.
        intros [?|[?|[?|[?|[?|?]]]]]; try contradiction; discriminate. }
      rewrite Hv in Hs. destruct Hs; discriminate.
    + intros H. destruct (validateFlags c) eqn:Hv; [eauto|].
      apply Hnone in Hv. contradiction.
  - intros st st' e H4 Hv. unfold main.
    change steps with (take 4 steps ++ drop 4 steps).
    rewrite runSteps_app, H4. simpl. rewrite Hv. reflexivity.
Qed.

End Validation.

(** ** The collector's loop over the extensions *)

Section CollectorClaims.
Context {lib : GoLib}.

Lemma init_unreadable (file msg : gostring) :
  ReadFile file = inr msg ->
  testFileScanner_init (newScanner file) = Ok (newScanner file, Some msg).
Proof. intros H. unfold testFileScanner_init. simpl. rewrite H. reflexivity. Qed.

Lemma init_error_unreadable (file msg : gostring) (sc : testFileScanner) :
  testFileScanner_init (newScanner file) = Ok (sc, Some msg) ->
  ReadFile file = inr msg /\ sc = newScanner file.
Proof.
  unfold testFileScanner_init. simpl.
  destruct (ReadFile file) as [data|e].
  - destruct (skipHeader (Split newline data)); discriminate.
  - intros H. injection H as <- <-. auto.
Qed.

Lemma collectOne_testDir eval (e : gostring) (c c' : collector)
    (out out' : list gostring) :
  collectOne eval e (c, out) = Ok (c', out') -> testDir c' = testDir c.
Proof.
  unfold collectOne.
  destruct (testFileScanner_init _) as [[sc [msg|]]|]; try discriminate.
  - intros H. injection H as <- _. reflexivity.
  - destruct (eval _) as [found [msg|]]; intros H; injection H as <- _;
      reflexivity.
Qed.

Lemma collectLoop_returns eval (exts : list gostring) :
  forall (c : collector) (out : list gostring),
    (forall e, e ∈ exts ->
       testFileScanner_init (newScanner (fixturePath c e)) <> Panic) ->
    exists st', collectLoop eval exts (c, out) = Ok st'.
Proof.
  induction exts as [|e exts IH]; intros c out Hp; cbn [collectLoop]; [eauto|].
  destruct (collectOne eval e (c, out)) as [[c1 out1]|] eqn:E1.
  - apply collectOne_testDir in E1 as Ht. apply IH.
    intros e' He'. unfold fixturePath. rewrite Ht. apply Hp. right. exact He'.
  - exfalso. unfold collectOne in E1.
    cbn [current withCurrent scanner] in E1. fold (fixturePath c e) in E1.
    assert (Hn := Hp e ltac:(left)).
    destruct (testFileScanner_init (newScanner (fixturePath c e)))
      as [[sc [msg|]]|]; try discriminate; [|congruence].
    destruct (eval _) as [found [msg|]]; discriminate.
Qed.

Lemma collectOne_stub (e : gostring) (c : collector) (out : list gostring) :
  testFileScanner_init (newScanner (fixturePath c e)) <> Panic ->
  exists c', collectOne evaluateCurrent e (c, out) =
               Ok (c', out ++ from_option (fun l => [l]) [] (skipLine c e)) /\
             stats c' = stats c /\ testDir c' = testDir c /\
             extension (current c') = e.
Proof.
  intros Hp. unfold collectOne, skipLine.
  cbn [current withCurrent scanner]. fold (fixturePath c e).
  destruct (testFileScanner_init (newScanner (fixturePath c e)))
    as [[sc [msg|]]|] eqn:Ei; [| |congruence].
  - apply init_error_unreadable in Ei as [-> ->]. eexists. split; [reflexivity|].
    auto.
  - unfold testFileScanner_init in Ei. cbn [filename newScanner] in Ei.
    destruct (ReadFile (fixturePath c e)) as [data|msg]; [|discriminate].
    cbn [evaluateCurrent from_option]. rewrite !app_nil_r.
    eexists. split; [reflexivity|]. auto.
Qed.

Lemma collectLoop_stub (exts : list gostring) :
  forall (c : collector) (out : list gostring),
    (forall e, e ∈ exts ->
       testFileScanner_init (newScanner (fixturePath c e)) <> Panic) ->
    exists c', collectLoop evaluateCurrent exts (c, out) =
                 Ok (c', out ++ omap (skipLine c) exts) /\
               stats c' = stats c /\ testDir c' = testDir c.
Proof.
  induction exts as [|e exts IH]; intros c out Hp; cbn [collectLoop].
  - exists c. simpl. rewrite app_nil_r. auto.
  - destruct (collectOne_stub e c out (Hp e ltac:(left)))
      as (c1 & -> & Hs & Ht & _).
    destruct (IH c1 (out ++ from_option (fun l => [l]) [] (skipLine c e)))
      as (c' & -> & Hs' & Ht').
    { intros e' He'. unfold fixturePath. rewrite Ht. apply Hp. right. exact He'. }
    exists c'. split; [|split; congruence].
    f_equal. f_equal. rewrite <- app_assoc. f_equal.
    assert (Eskip : omap (skipLine c1) exts = omap (skipLine c) exts).
    { clear -Ht. unfold skipLine, fixturePath. rewrite Ht. reflexivity. }
    rewrite Eskip. simpl. destruct (skipLine c e); reflexivity.
Qed.

Lemma collectLoop_stub_stats (exts : list gostring) :
  forall (c c' : collector) (out out' : list gostring),
    collectLoop evaluateCurrent exts (c, out) = Ok (c', out') ->
    stats c' = stats c.
Proof.
  induction exts as [|e exts IH]; intros c c' out out' H; cbn [collectLoop] in H.
  - injection H as <- _. reflexivity.
  - destruct (collectOne evaluateCurrent e (c, out)) as [[c1 out1]|] eqn:E1;
      [|discriminate].
    apply IH in H. rewrite H. clear H. unfold collectOne in E1. simpl in E1.
    destruct (testFileScanner_init _) as [[sc [msg|]]|]; try discriminate;
      injection E1 as <- _; simpl; [reflexivity | apply app_nil_r].
Qed.

(** C1: [evaluateCurrent] returns no statistics and no error in every
    state; so a run of [collectCounters] that returns leaves the
    statistics list as it found it, empty when it started empty. *)
Theorem evaluateCurrent_is_a_stub :
  (forall c : collector, evaluateCurrent c = ([], None)) /\
  (forall (c c' : collector) (out out' : list gostring) (r : option gostring),
     collectCounters (c, out) = Ok ((c', out'), r) -> stats c' = stats c) /\
  (forall (c c' : collector) (out out' : list gostring) (r : option gostring),
     stats c = [] ->
     collectCounters (c, out) = Ok ((c', out'), r) -> stats c' = []).
Proof.
  assert (H : forall (c c' : collector) (out out' : list gostring) r,
     collectCounters (c, out) = Ok ((c', out'), r) -> stats c' = stats c).
  { intros c c' out out' r. unfold collectCounters, collectCountersWith. simpl.
    destruct (collectLoop evaluateCurrent (extensions c) (c, out))
      as [[c1 out1]|] eqn:E; [|discriminate].
    intros H. injection H as <- _ _. eapply collectLoop_stub_stats. exact E. }
  split; [reflexivity|]. split; [exact H|].
  intros c c' out out' r Hs Hr. rewrite (H _ _ _ _ _ Hr). exact Hs.
Qed.

(** One turn of the loop of [collectCounters], for any evaluation step:
    an extension whose fixture cannot be read, or whose evaluation returns
    an error, adds one line to the log and nothing to the statistics; an
    extension that is evaluated adds what was found to the statistics and
    nothing to the log; in each case the loop goes on with the remaining
    extensions.  [collectCounters] never returns an error.  When no [init]
    panics it returns, and for the program's own evaluation step the log
    of the run is one line for each unreadable fixture, in order. *)
Theorem collectCounters_skips_failed_extensions
    (eval : collector -> list iformStats * option gostring) :
  (forall e rest c out msg,
     ReadFile (fixturePath c e) = inr msg ->
     collectLoop eval (e :: rest) (c, out) =
     collectLoop eval rest
       (withCurrent c {| extension := e;
                         scanner := newScanner (fixturePath c e) |},
        out ++ [logSkip e msg])) /\
  (forall e rest c out sc found msg,
     testFileScanner_init (newScanner (fixturePath c e)) = Ok (sc, None) ->
     eval (withCurrent c {| extension := e; scanner := sc |}) = (found, Some msg) ->
     collectLoop eval (e :: rest) (c, out) =
     collectLoop eval rest
       (withCurrent c {| extension := e; scanner := sc |},
        out ++ [logFailed e msg])) /\
  (forall e rest c out sc found,
     testFileScanner_init (newScanner (fixturePath c e)) = Ok (sc, None) ->
     eval (withCurrent c {| extension := e; scanner := sc |}) = (found, None) ->
     collectLoop eval (e :: rest) (c, out) =
     collectLoop eval rest
       (withStats (withCurrent c {| extension := e; scanner := sc |})
                  (stats c ++ found),
        out)) /\
  (forall st st' r, collectCountersWith eval st = Ok (st', r) -> r = None) /\
  (forall c out, initsReturn c ->
     exists st', collectCountersWith eval (c, out) = Ok (st', None)) /\
  (forall c out, initsReturn c ->
     exists c', collectCounters (c, out) =
                  Ok ((c', out ++ omap (skipLine c) (extensions c)), None) /\
                stats c' = stats c).
Proof.
  split; [|split; [|split; [|split; [|split]]]].
  - intros e rest c out msg Hr. cbn [collectLoop]. unfold collectOne.
    cbn [current withCurrent scanner]. fold (fixturePath c e).
    rewrite (init_unreadable _ _ Hr). reflexivity.
  - intros e rest c out sc found msg Hi He. cbn [collectLoop]. unfold collectOne.
    cbn [current withCurrent scanner]. fold (fixturePath c e).
    rewrite Hi.
    change (withCurrent (withCurrent c _) {| extension := e; scanner := sc |})
      with (withCurrent c {| extension := e; scanner := sc |}).
    rewrite He. reflexivity.
  - intros e rest c out sc found Hi He. cbn [collectLoop]. unfold collectOne.
    cbn [current withCurrent scanner]. fold (fixturePath c e).
    rewrite Hi.
    change (withCurrent (withCurrent c _) {| extension := e; scanner := sc |})
      with (withCurrent c {| extension := e; scanner := sc |}).
    rewrite He. reflexivity.
  - intros st st' r. unfold collectCountersWith.
    destruct (collectLoop eval (extensions st.1) st); [|discriminate].
    intros H. injection H as _ <-. reflexivity.
  - intros c out Hp. unfold collectCountersWith. simpl.
    destruct (collectLoop_returns eval (extensions c) c out Hp) as (st' & ->).
    eauto.
  - intros c out Hp. unfold collectCounters, collectCountersWith. simpl.
    destruct (collectLoop_stub (extensions c) c out Hp) as (c' & -> & Hs & _).
    eauto.
Qed.

End CollectorClaims.

(** ** The theorems at concrete inputs *)

Lemma scan_rejects_unmatched_line_witness :
  @scannerReady exampleGo (exampleScanner [str "TEXT asmtest(SB)"; sentinel]) /\
  lines (exampleScanner [str "TEXT asmtest(SB)"; sentinel]) =
    str "TEXT asmtest(SB)" :: [sentinel] /\
  str "TEXT asmtest(SB)" <> sentinel /\
  FindStringSubmatch lineRE_pattern (str "TEXT asmtest(SB)") = None /\
  exists s',
    @scan exampleGo (exampleScanner [str "TEXT asmtest(SB)"; sentinel]) =
      Ok (false, s') /\
    err s' = Some (str "testdata/avx512f.s: unexpected " ++
                   @Quote exampleGo (str "TEXT asmtest(SB)") ++
                   str " line (does not match pattern)") /\
    lines s' = str "TEXT asmtest(SB)" :: [sentinel] /\
    filename s' = str "testdata/avx512f.s".
Proof.
  assert (Hr : @scannerReady exampleGo
                 (exampleScanner [str "TEXT asmtest(SB)"; sentinel])).
  { split; [reflexivity|]. split; [|exact I].
    repeat constructor; compute_done. }
  assert (Hne : str "TEXT asmtest(SB)" <> sentinel) by discriminate.
  assert (Hm : FindStringSubmatch lineRE_pattern (str "TEXT asmtest(SB)") = None)
    by (vm_compute; reflexivity).
  split; [exact Hr|]. split; [reflexivity|]. split; [exact Hne|].
  split; [exact Hm|].
  exact (@scan_rejects_unmatched_line exampleGo _ _ _ Hr eq_refl Hne Hm).
Defined.


Lemma init_panics_without_tab_line_witness :
  @ReadFile exampleGo (filename (newScanner (str "testdata/header.s"))) =
    inl headerOnlyFixture /\
  @testFileScanner_init exampleGo (newScanner (str "testdata/header.s")) = Panic /\
  @ReadFile exampleGo (filename (newScanner (str "testdata/empty.s"))) = inl [] /\
  @testFileScanner_init exampleGo (newScanner (str "testdata/empty.s")) = Panic.
Proof.
  assert (H1 : @ReadFile exampleGo (filename (newScanner (str "testdata/header.s")))
               = inl headerOnlyFixture) by (vm_compute; reflexivity).
  assert (H2 : @ReadFile exampleGo (filename (newScanner (str "testdata/empty.s")))
               = inl []) by (vm_compute; reflexivity).
  split; [exact H1|]. split.
  - apply (proj1 (@init_panics_without_tab_line exampleGo _ _ H1)).
    repeat constructor.
  - split; [exact H2|].
    apply (proj1 (@init_panics_without_tab_line exampleGo _ _ H2)).
    repeat constructor.
Defined.

Lemma collectCounters_skips_failed_extensions_witness :
  @initsReturn exampleGo exampleCollector /\
  exists c',
    @collectCounters exampleGo (exampleCollector, []) =
      Ok ((c', [str "skip missing: can't scan test file: " ++
                str "open testdata/missing.s: no such file or directory"]),
          None) /\
    stats c' = [].
Proof.
  assert (H : @initsReturn exampleGo exampleCollector).
  { intros e He. apply elem_of_cons in He as [->|He];
      [vm_compute; discriminate|].
    apply list_elem_of_singleton in He as ->. vm_compute. discriminate. }
  split; [exact H|].
  exact (proj2 (proj2 (proj2 (proj2 (proj2
    (@collectCounters_skips_failed_extensions exampleGo evaluateCurrent)))))
    exampleCollector [] H).
Defined.


Lemma evaluateCurrent_is_a_stub_witness :
  exists c' out',
    @collectCounters exampleGo (exampleCollector, []) = Ok ((c', out'), None) /\
    stats c' = [].
Proof.
  destruct (@collectCounters exampleGo (exampleCollector, []))
    as [[[c' out'] r]|] eqn:E; [|vm_compute in E; discriminate].
  assert (r = None) as -> by (vm_compute in E; congruence).
  exists c', out'. split; [reflexivity|].
  exact (proj2 (proj2 (@evaluateCurrent_is_a_stub exampleGo))
           exampleCollector c' [] out' None eq_refl E).
Defined.

Lemma init_skips_header_witness :
  exists s,
    @testFileScanner_init exampleGo (newScanner (str "testdata/avx512f.s")) =
      Ok (s, None) /\
    lines s =
      [tab :: str "VADDPD Z1, Z2, Z3 // 62f1ed4858d9"; exampleLine; sentinel; []].
Proof.
  eexists. split.
  - apply (@init_skips_header exampleGo (newScanner (str "testdata/avx512f.s"))
             exampleFixture
             [str "// Code generated by avx512test. DO NOT EDIT."; [];
              str "TEXT asmtest_avx512f(SB), NOSPLIT, $0"]
             (tab :: str "VADDPD Z1, Z2, Z3 // 62f1ed4858d9")
             [exampleLine; sentinel; []]).
    + vm_compute. reflexivity.
    + vm_compute. reflexivity.
    + repeat constructor.
    + reflexivity.
  - reflexivity.
Defined.

Lemma reachable_ready_witness :
  exists s, @reachable exampleGo s /\ @scannerReady exampleGo s.
Proof.
  destruct (@testFileScanner_init exampleGo (newScanner (str "testdata/avx512f.s")))
    as [[s [e|]]|] eqn:E; try (vm_compute in E; discriminate).
  exists s.
  assert (H : @reachable exampleGo s) by (eapply reach_init; exact E).
  split; [exact H | exact (@reachable_ready exampleGo s H)].
Defined.

(** ** Sequences of scans *)

Section ScanLoop.
Context {lib : GoLib}.

Lemma scan_false_stays (s s' : testFileScanner) :
  scan s = Ok (false, s') -> scan s' = Ok (false, s').
Proof.
  intros H. pose proof H as H0. unfold scan in H.
  destruct (err s) as [e|] eqn:Ee.
  { injection H as <-. exact H0. }
  destruct (lines s) as [|l rest] eqn:El.
  { injection H as <-. reflexivity. }
  destruct (decide (l = sentinel)) as [->|Hne].
  { injection H as <-. exact H0. }
  destruct (lineRE s) as [re|]; [|discriminate].
  destruct (FindStringSubmatch re l) as [[|m0 [|m1 [|m2 m]]]|];
    try discriminate.
  injection H as <-. reflexivity.
Qed.

(** Once [scan] has returned false, by the sentinel or by an error, every
    later call returns false again and changes nothing. *)
Theorem scan_false_is_final (s s' : testFileScanner) :
  scan s = Ok (false, s') -> scan s' = Ok (false, s').
Proof.
  intros H. pose proof H as H0. unfold scan in H.
  destruct (err s) as [e|] eqn:Ee.
  { injection H as <-. exact H0. }
  destruct (lines s) as [|l rest] eqn:El.
  { injection H as <-. reflexivity. }
  destruct (decide (l = sentinel)) as [->|Hne].
  { injection H as <-. exact H0. }
  destruct (lineRE s) as [re|]; [|discriminate].
  destruct (FindStringSubmatch re l) as [[|m0 [|m1 [|m2 m]]]|];
    try discriminate.
  injection H as <-. reflexivity.
Qed.

Lemma scan_changes (s s' : testFileScanner) (b : bool) :
  scan s = Ok (b, s') ->
  filename s' = filename s /\ lineRE s' = lineRE s /\
  (b = true ->
   err s = None /\ err s' = None /\ exists l, lines s = l :: lines s') /\
  (b = false -> lines s' = lines s /\ line s' = line s).
Proof.
  unfold scan. intros H.
  destruct (err s) as [e|] eqn:Ee.
  { injection H as <- <-. repeat split; auto; discriminate. }
  destruct (lines s) as [|l rest] eqn:El.
  { injection H as <- <-. simpl. repeat split; auto; discriminate. }
  destruct (decide (l = sentinel)) as [->|Hne].
  { injection H as <- <-. repeat split; auto; discriminate. }
  destruct (lineRE s) as [re|] eqn:Er; [|discriminate].
  destruct (FindStringSubmatch re l) as [[|m0 [|m1 [|m2 m]]]|];
    try discriminate; injection H as <- <-; simpl.
  - repeat split; eauto; discriminate.
  - repeat split; auto; discriminate.
Qed.

(** [scan] never changes the file name or the pattern.  When it returns
    true there was no error before and there is none after, and exactly
    the first unprocessed line is gone; when it returns false the
    unprocessed lines and the last decoded line are as before. *)
Theorem scan_frame (s s' : testFileScanner) (b : bool) :
  scan s = Ok (b, s') ->
  filename s' = filename s /\ lineRE s' = lineRE s /\
  (b = true ->
   err s = None /\ err s' = None /\ exists l, lines s = l :: lines s') /\
  (b = false -> lines s' = lines s /\ line s' = line s).
Proof.
  unfold scan. intros H.
  destruct (err s) as [e|] eqn:Ee.
  { injection H as <- <-. repeat split; auto; discriminate. }
  destruct (lines s) as [|l rest] eqn:El.
  { injection H as <- <-. simpl. repeat split; auto; discriminate. }
  destruct (decide (l = sentinel)) as [->|Hne].
  { injection H as <- <-. repeat split; auto; discriminate. }
  destruct (lineRE s) as [re|] eqn:Er; [|discriminate].
  destruct (FindStringSubmatch re l) as [[|m0 [|m1 [|m2 m]]]|];
    try discriminate; injection H as <- <-; simpl.
  - repeat split; eauto; discriminate.
  - repeat split; auto; discriminate.
Qed.

Lemma scan_decodes (s : testFileScanner) (l : gostring)
    (rest : list gostring) (r : testLine) :
  scannerReady s -> err s = None -> lines s = l :: rest ->
  decodeLine l = Some r ->
  scan s = Ok (true, {| filename := filename s; lineRE := lineRE s;
                        lines := rest; line := r; err := None |}).
Proof.
  intros (Hre & _ & _) He Hl Hd. unfold scan, decodeLine in *.
  rewrite He, Hl, Hre.
  destruct (decide (l = sentinel)) as [->|_].
  { rewrite sentinel_no_match in Hd. discriminate. }
  destruct (FindStringSubmatch lineRE_pattern l) as [[|m0 [|m1 [|m2 m]]]|];
    try discriminate.
  injection Hd as <-. reflexivity.
Qed.

Lemma decodeLine_None (l : gostring) :
  decodeLine l = None -> FindStringSubmatch lineRE_pattern l = None.
Proof.
  unfold decodeLine. intros H.
  destruct (FindStringSubmatch lineRE_pattern l) as [m|] eqn:E; [|reflexivity].
  exfalso. apply FindStringSubmatch_leftmost in E as (pre & s & _ & Hm & _).
  apply matchAt_lineRE in Hm as (? & ? & ? & ? & _ & -> & _). discriminate.
Qed.

(** A scan loop over a scanner whose unprocessed lines are [ls], then one
    more line [stop], then [rest].  All of [ls] match the line pattern.
    The loop yields the decoded [ls] in order and ends at [stop]: without
    an error when [stop] is the sentinel, and with the does-not-match
    error, which names the file and the line, when [stop] is another line
    the pattern does not match.  Nothing after [stop] is read. *)
Theorem drain_until_stop (s : testFileScanner) (ls : list gostring)
    (stop : gostring) (rest : list gostring) (recs : list testLine)
    (fuel : nat) :
  scannerReady s -> err s = None ->
  lines s = ls ++ stop :: rest ->
  Forall2 (fun l r => decodeLine l = Some r) ls recs ->
  decodeLine stop = None ->
  length ls < fuel ->
  exists s',
    drain fuel s = Ok (recs, s') /\
    lines s' = stop :: rest /\ filename s' = filename s /\
    err s' = (if decide (stop = sentinel) then None
              else Some (filename s ++ str ": unexpected " ++ Quote stop ++
                         str " line (does not match pattern)")).
Proof.
  intros Hr He Hl Hd Hstop. revert s fuel Hr He Hl.
  induction Hd as [|l r ls recs Hlr _ IH]; intros s fuel Hr He Hl Hf.
  - destruct fuel as [|fuel]; [simpl in Hf; lia|]. simpl in Hl. simpl.
    destruct Hr as (Hre & _ & _). unfold scan. rewrite He, Hl, Hre.
    destruct (decide (stop = sentinel)) as [->|Hne].
    + exists s. auto.
    + rewrite (decodeLine_None _ Hstop). eexists. split; [reflexivity|].
      simpl. rewrite Hl. auto.
  - destruct fuel as [|fuel]; [simpl in Hf; lia|]. simpl in Hl, Hf.
    cbn [drain]. rewrite (scan_decodes s l _ r Hr He Hl Hlr).
    assert (Hr' : scannerReady {| filename := filename s; lineRE := lineRE s;
                    lines := ls ++ stop :: rest; line := r; err := None |}).
    { destruct Hr as (Hre & Hnl & _). rewrite Hl in Hnl.
      inversion Hnl; subst. split; [exact Hre|]. split; [assumption | exact I]. }
    destruct (IH _ fuel Hr' eq_refl eq_refl ltac:(lia)) as (s' & -> & H1 & H2 & H3).
    exists s'. auto.
Qed.

(** A scan loop over a scanner whose unprocessed lines all match the line
    pattern and hold no sentinel yields every decoded line and ends with
    the unexpected-EOF error. *)
Theorem drain_without_sentinel (s : testFileScanner) (recs : list testLine)
    (fuel : nat) :
  scannerReady s -> err s = None ->
  Forall2 (fun l r => decodeLine l = Some r) (lines s) recs ->
  length (lines s) < fuel ->
  exists s',
    drain fuel s = Ok (recs, s') /\ lines s' = [] /\
    err s' = Some (filename s ++
                   str ": unexpected EOF (expected RET instruction)").
Proof.
  intros Hr He Hd. remember (lines s) as ls eqn:Hl. symmetry in Hl.
  revert s fuel Hr He Hl.
  induction Hd as [|l r ls recs Hlr _ IH]; intros s fuel Hr He Hl Hf.
  - destruct fuel as [|fuel]; [simpl in Hf; lia|]. simpl.
    unfold scan. rewrite He, Hl. eexists. split; [reflexivity|].
    simpl. auto.
  - destruct fuel as [|fuel]; [simpl in Hf; lia|]. simpl in Hf.
    cbn [drain]. rewrite (scan_decodes s l _ r Hr He Hl Hlr).
    assert (Hr' : scannerReady {| filename := filename s; lineRE := lineRE s;
                    lines := ls; line := r; err := None |}).
    { destruct Hr as (Hre & Hnl & _). rewrite Hl in Hnl.
      inversion Hnl; subst. split; [exact Hre|]. split; [assumption | exact I]. }
    destruct (IH _ fuel Hr' eq_refl eq_refl ltac:(lia)) as (s' & -> & H1 & H2).
    exists s'. auto.
Qed.

(** For every scanner that [init] and [scan] can produce, a scan loop
    given more fuel than there are unprocessed lines ends because [scan]
    returned false, never by a panic: it has consumed one line for each
    record it yields, each record is the decoding of its line, and the
    state it ends in is again one of those states. *)
Theorem drain_ends (s : testFileScanner) (fuel : nat) :
  scannerReady s ->
  length (lines s) < fuel ->
  exists recs s',
    drain fuel s = Ok (recs, s') /\
    scan s' = Ok (false, s') /\
    lines s' = drop (length recs) (lines s) /\
    Forall2 (fun l r => decodeLine l = Some r)
            (take (length recs) (lines s)) recs /\
    scannerReady s'.
Proof.
  remember (lines s) as ls eqn:Hl. revert s fuel Hl.
  induction ls as [|l ls IH]; intros s fuel Hl Hr Hf;
    (destruct fuel as [|fuel]; [simpl in Hf; lia|]); cbn [drain].
  - destruct (scan s) as [[b s1]|] eqn:Es.
    2:{ exfalso. unfold scan in Es. rewrite <- Hl in Es.
        destruct (err s); discriminate. }
    assert (b = false) as ->.
    { unfold scan in Es. rewrite <- Hl in Es.
      destruct (err s); injection Es as <- _; reflexivity. }
    exists [], s1. split; [reflexivity|].
    split; [exact (scan_false_stays _ _ Es)|].
    destruct (scan_changes _ _ _ Es) as (_ & _ & _ & Hfalse).
    destruct (Hfalse eq_refl) as [Hls _]. rewrite Hls, <- Hl.
    split; [reflexivity|]. split; [constructor|].
    exact (scan_ready _ _ _ Hr Es).
  - destruct (scan s) as [[b s1]|] eqn:Es.
    2:{ exfalso. destruct Hr as (Hre & _ & _). unfold scan in Es.
        rewrite <- Hl, Hre in Es.
        destruct (err s); [discriminate|].
        destruct (decide (l = sentinel)); [discriminate|].
        destruct (FindStringSubmatch lineRE_pattern l) as [m|] eqn:Em;
          [|discriminate].
        apply FindStringSubmatch_leftmost in Em as (pre & t & _ & Hm & _).
        apply matchAt_lineRE in Hm as (? & ? & ? & ? & _ & -> & _).
        discriminate. }
    pose proof (scan_ready _ _ _ Hr Es) as Hr1.
    destruct (scan_changes _ _ _ Es) as (_ & _ & Htrue & Hfalse).
    destruct b.
    + destruct (Htrue eq_refl) as (He & He1 & l0 & Hls).
      rewrite <- Hl in Hls. injection Hls as <- Hls.
      destruct (IH s1 fuel Hls Hr1 ltac:(simpl in Hf; lia))
        as (recs & s' & -> & Hfin & Hdrop & Hdec & Hr').
      exists (line s1 :: recs), s'. split; [reflexivity|].
      split; [exact Hfin|]. split; [exact Hdrop|]. split; [|exact Hr'].
      simpl. constructor; [|exact Hdec].
      destruct Hr as (Hre & _ & _). unfold scan in Es.
      rewrite He, <- Hl, Hre in Es. unfold decodeLine.
      destruct (decide (l = sentinel)); [discriminate|].
      destruct (FindStringSubmatch lineRE_pattern l)
        as [[|m0 [|m1 [|m2 m]]]|]; try discriminate.
      injection Es as <-. reflexivity.
    + destruct (Hfalse eq_refl) as [Hls _].
      exists [], s1. split; [reflexivity|].
      split; [exact (scan_false_stays _ _ Es)|].
      rewrite Hls, <- Hl. split; [reflexivity|]. split; [constructor|].
      exact Hr1.
Qed.

End ScanLoop.

(** ** Reading the extensions and the flags *)

Lemma TrimSuffix_app (e suffix : gostring) : TrimSuffix (e ++ suffix) suffix = e.
Proof.
  unfold TrimSuffix, HasSuffix. rewrite length_app.
  replace (length e + length suffix - length suffix) with (length e) by lia.
  rewrite drop_app_length, take_app_length.
  rewrite bool_decide_eq_true_2 by reflexivity.
  destruct (Nat.leb_spec (length suffix) (length e + length suffix));
    [reflexivity | lia].
Qed.

Lemma Split_length (sep : ascii) (s : gostring) :
  length (Split sep s) = S (length (filter (fun c => c = sep) s)).
Proof.
  induction s as [|c s IH]; [reflexivity|]. simpl.
  destruct (Ascii.eqb_spec c sep) as [->|Hne].
  - rewrite filter_cons_True by reflexivity. simpl. rewrite IH. reflexivity.
  - rewrite filter_cons_False by assumption.
    destruct (Split sep s); simpl in *; [discriminate | exact IH].
Qed.

Section ReadExtensions.
Context {sys : GoOS}.

Lemma markAvailable_lookup (names : list gostring) :
  forall (m : gmap gostring bool) (e : gostring),
    default false (markAvailable names m !! e) = true <->
    default false (m !! e) = true \/
    exists f, f ∈ names /\ TrimSuffix f (str ".s") = e.
Proof.
  induction names as [|f names IH]; intros m e; cbn [markAvailable].
  - split; [auto|]. intros [H|(f & Hf & _)]; [exact H | inversion Hf].
  - rewrite IH. split.
    + intros [H|(g & Hg & Eg)].
      * destruct (decide (TrimSuffix f (str ".s") = e)) as [E|Hne].
        -- right. exists f. split; [left | exact E].
        -- rewrite lookup_insert_ne in H by exact Hne. auto.
      * right. exists g. split; [right; exact Hg | exact Eg].
    + intros [H|(g & Hg & Eg)].
      * destruct (decide (TrimSuffix f (str ".s") = e)) as [E|Hne].
        -- left. rewrite E, lookup_insert_eq. reflexivity.
        -- left. rewrite lookup_insert_ne by exact Hne. exact H.
      * apply elem_of_cons in Hg as [->|Hg].
        -- left. rewrite Eg, lookup_insert_eq. reflexivity.
        -- right. eauto.
Qed.

Lemma readExtensions_available (c : collector) (names : list gostring) :
  ReadDir (testDir c) = inl names ->
  exists c',
    collector_readExtensions (fst (collector_init c)) = (c', None) /\
    (forall e, available c' e = true <->
               exists f, f ∈ names /\ TrimSuffix f (str ".s") = e) /\
    (forall e, e ++ str ".s" ∈ names -> available c' e = true) /\
    (forall f, f ∈ names -> HasSuffix f (str ".s") = false ->
               available c' f = true) /\
    testDir c' = testDir c /\ extensions c' = extensions c /\
    stats c' = stats c.
Proof.
  intros Hd. unfold collector_readExtensions.
  cbn [collector_init fst testDir]. rewrite Hd.
  eexists. split; [reflexivity|]. unfold available. cbn [availableExt].
  assert (Hav : forall e,
    default false (markAvailable names ∅ !! e) = true <->
    exists f, f ∈ names /\ TrimSuffix f (str ".s") = e).
  { intros e. rewrite markAvailable_lookup, lookup_empty. simpl.
    split; [intros [H|H]; [discriminate | exact H] | auto]. }
  split; [exact Hav|]. split; [|split; [|auto]].
  - intros e He. apply Hav. exists (e ++ str ".s").
    split; [exact He | apply TrimSuffix_app].
  - intros f Hf Hs. apply Hav. exists f. split; [exact Hf|].
    unfold TrimSuffix. rewrite Hs. reflexivity.
Qed.

(** After [init] and [readExtensions] over a readable test directory, an
    extension is available exactly when it is the name of some directory
    entry with a trailing [.s] removed; whatever the map held before
    [init] is gone.  So a fixture [e.s] makes [e] available, and an entry
    whose name does not end in [.s] makes its whole name available.  The
    step returns nil and changes no other field. *)
Theorem readExtensions_marks_entries (c : collector) (names : list gostring) :
  ReadDir (testDir c) = inl names ->
  exists c',
    collector_readExtensions (fst (collector_init c)) = (c', None) /\
    (forall e, available c' e = true <->
               exists f, f ∈ names /\ TrimSuffix f (str ".s") = e) /\
    (forall e, e ++ str ".s" ∈ names -> available c' e = true) /\
    (forall f, f ∈ names -> HasSuffix f (str ".s") = false ->
               available c' f = true) /\
    testDir c' = testDir c /\ extensions c' = extensions c /\
    stats c' = stats c.
Proof.
  intros Hd. unfold collector_readExtensions.
  cbn [collector_init fst testDir]. rewrite Hd.
  eexists. split; [reflexivity|]. unfold available. cbn [availableExt].
  assert (Hav : forall e,
    default false (markAvailable names ∅ !! e) = true <->
    exists f, f ∈ names /\ TrimSuffix f (str ".s") = e).
  { intros e. rewrite markAvailable_lookup, lookup_empty. simpl.
    split; [intros [H|H]; [discriminate | exact H] | auto]. }
  split; [exact Hav|]. split; [|split; [|auto]].
  - intros e He. apply Hav. exists (e ++ str ".s").
    split; [exact He | apply TrimSuffix_app].
  - intros f Hf Hs. apply Hav. exists f. split; [exact Hf|].
    unfold TrimSuffix. rewrite Hs. reflexivity.
Qed.

End ReadExtensions.

Section ValidateOrder.
Context {lib : GoLib}.

(** [validateFlags] reports the first requested extension that is not
    available, in the order of the list and whatever the other settings
    are. *)
Theorem validateFlags_reports_first_unavailable (c : collector)
    (pre : list gostring) (e : gostring) (post : list gostring) :
  extensions c = pre ++ e :: post ->
  Forall (fun x => available c x = true) pre ->
  available c e = false ->
  validateFlags c = Some (str "unavailable extension: " ++ Quote e).
Proof.
  intros He Hpre Hu. unfold validateFlags. rewrite He.
  assert (H : firstUnavailable c (pre ++ e :: post) = Some e).
  { clear He. induction Hpre as [|x pre Hx _ IH]; simpl.
    - rewrite Hu. reflexivity.
    - rewrite Hx. exact IH. }
  rewrite H. reflexivity.
Qed.

End ValidateOrder.

Section Configuration.
Context {lib : GoLib} {sys : GoOS}.

(** [parseFlags] appends one extension for each comma-separated piece of
    the flag, trimmed, so at least one: the extension list is never empty
    afterwards, also for the empty flag, and [validateFlags] cannot return
    its at-least-1-extension error on the result. *)
Theorem parseFlags_extensions_nonempty (fv : flagValues) (c : collector) :
  extensions (fst (collector_parseFlags fv c)) =
    extensions c ++ map TrimSpace (Split "," (flagExtensions fv)) /\
  length (extensions (fst (collector_parseFlags fv c))) =
    length (extensions c) +
    S (length (filter (fun ch => ch = ","%char) (flagExtensions fv))) /\
  extensions (fst (collector_parseFlags fv c)) <> [] /\
  validateFlags (fst (collector_parseFlags fv c)) <>
    Some (str "expected at least 1 extension name").
Proof.
  set (c' := fst (collector_parseFlags fv c)).
  assert (He : extensions c' =
               extensions c ++ map TrimSpace (Split "," (flagExtensions fv))).
  { unfold c', collector_parseFlags. destruct (Abs (flagWorkDir fv)); reflexivity. }
  assert (Hlen : length (extensions c') = length (extensions c) +
            S (length (filter (fun ch => ch = ","%char) (flagExtensions fv)))).
  { rewrite He, length_app, length_map, Split_length. reflexivity. }
  assert (Hne : extensions c' <> []).
  { intros E. rewrite E in Hlen. simpl in Hlen. lia. }
  split; [exact He|]. split; [exact Hlen|]. split; [exact Hne|].
  unfold validateFlags.
  destruct (firstUnavailable c' (extensions c')) as [e|]; [discriminate|].
  destruct (extensions c') as [|x xs]; [congruence|]. simpl.
  destruct (Nat.eqb (length (perfTool c')) 0); [discriminate|].
  destruct (iformSpanSize c' =? 0)%N; [discriminate|].
  destruct (loopCount c' =? 0)%N; [discriminate|].
  destruct (perfRounds c' =? 0)%N; discriminate.
Qed.

(** The configuration steps in the order of [main]: [init], then
    [readExtensions] over a readable directory, then [parseFlags] on a
    collector that had no extension.  [validateFlags] accepts the result
    exactly when every trimmed piece of the extensions flag is the name of
    a directory entry with a trailing [.s] removed, the perf flag is not
    empty and the three counts are not zero. *)
Theorem configuration_is_valid_iff (c : collector) (names : list gostring)
    (fv : flagValues) :
  ReadDir (testDir c) = inl names ->
  extensions c = [] ->
  validateFlags
    (fst (collector_parseFlags fv
       (fst (collector_readExtensions (fst (collector_init c)))))) = None <->
  Forall (fun e => exists f, f ∈ names /\ TrimSuffix f (str ".s") = e)
         (map TrimSpace (Split "," (flagExtensions fv))) /\
  flagPerf fv <> [] /\ flagIformSpanSize fv <> 0%N /\
  flagLoopCount fv <> 0%N /\ flagPerfRounds fv <> 0%N.
Proof.
  intros Hd He.
  destruct (readExtensions_available c names Hd)
    as (c1 & -> & Hav & _ & _ & _ & He1 & _). cbn [fst].
  set (c2 := fst (collector_parseFlags fv c1)).
  assert (Hc2 : extensions c2 = map TrimSpace (Split "," (flagExtensions fv)) /\
                availableExt c2 = availableExt c1 /\
                perfTool c2 = flagPerf fv /\
                iformSpanSize c2 = flagIformSpanSize fv /\
                loopCount c2 = flagLoopCount fv /\
                perfRounds c2 = flagPerfRounds fv).
  { unfold c2, collector_parseFlags. rewrite He1, He.
    destruct (Abs (flagWorkDir fv)); simpl; auto 10. }
  destruct Hc2 as (E1 & E2 & E3 & E4 & E5 & E6).
  rewrite (@validateFlags_None lib idleSteps), E1, E3, E4, E5, E6.
  assert (Hav2 : forall e, available c2 e = available c1 e).
  { intros e. unfold available. rewrite E2. reflexivity. }
  split.
  - intros (Ha & _ & H). split; [|exact H].
    eapply Forall_impl; [exact Ha|]. intros e Hx. simpl in Hx.
    rewrite Hav2 in Hx. apply Hav. exact Hx.
  - intros (Ha & H). split; [|split; [|exact H]].
    + eapply Forall_impl; [exact Ha|]. intros e Hx. simpl.
      rewrite Hav2. apply Hav. exact Hx.
    + intros E. apply (f_equal length) in E.
      rewrite length_map, Split_length in E. discriminate.
Qed.

End Configuration.

(** ** The step runner *)

(** The loop of [main] ends in a fatal error exactly when some step
    returns an error after all steps before it returned nil; the message
    is that step's name, a colon and the error, the state is the one that
    step left, and no later step has run. *)
Theorem runSteps_fatal_iff (l : list step) (st st' : runState)
    (msg : gostring) :
  runSteps l st = Fatal msg st' <->
  exists pre s post st0 e,
    l = pre ++ s :: post /\
    runSteps pre st = Finished st0 /\
    fn s st0 = Ok (st', Some e) /\
    msg = name s ++ str ": " ++ e.
Proof.
  split.
  - revert st. induction l as [|s l IH]; intros st H; simpl in H;
      [discriminate|].
    destruct (fn s st) as [[st1 [e|]]|] eqn:Ef; [| |discriminate].
    + injection H as <- <-. exists [], s, l, st, e. auto.
    + apply IH in H as (pre & s0 & post & st0 & e & -> & Hpre & Hs & ->).
      exists (s :: pre), s0, post, st0, e. simpl. rewrite Ef. auto.
  - intros (pre & s & post & st0 & e & -> & Hpre & Hs & ->).
    revert st Hpre. induction pre as [|p pre IH]; intros st Hpre; simpl in *.
    + injection Hpre as ->. rewrite Hs. reflexivity.
    + destruct (fn p st) as [[st1 [e1|]]|]; try discriminate. auto.
Qed.

Section RunnerClaims.
Context {lib : GoLib} {os : OSSteps}.

(** Once the seven steps before it have returned nil, [main] cannot end
    in a fatal error any more: [collectCounters] never returns an error,
    so the run finishes with its state, or panics where it panics. *)
Theorem main_after_visitWorkDir (st st7 : runState) :
  runSteps (take 7 steps) st = Finished st7 ->
  main st = match collectCounters st7 with
            | Ok (st', _) => Finished st'
            | Panic => Crashed
            end /\
  forall msg st', main st <> Fatal msg st'.
Proof.
  intros H7.
  assert (E : main st = match collectCounters st7 with
                        | Ok (st', _) => Finished st'
                        | Panic => Crashed
                        end).
  { unfold main. change steps with (take 7 steps ++ drop 7 steps).
    rewrite runSteps_app, H7. simpl.
    unfold collectCounters, collectCountersWith.
    destruct (collectLoop evaluateCurrent (extensions st7.1) st7); reflexivity. }
  split; [exact E|]. intros msg st'. rewrite E.
  destruct (collectCounters st7) as [[? ?]|]; discriminate.
Qed.

End RunnerClaims.

Section CollectorFrame.
Context {lib : GoLib}.

(** A run of [collectCounters] that returns has changed nothing of the
    collector but [current]; it has only added lines to the log, at most
    one for each extension; and [current.extension] is the last selected
    extension when there is one. *)
Theorem collectCounters_frame (c c' : collector) (out out' : list gostring)
    (r : option gostring) :
  collectCounters (c, out) = Ok ((c', out'), r) ->
  c' = withCurrent c (current c') /\
  (exists more, out' = out ++ more /\ length more <= length (extensions c)) /\
  (forall e, last (extensions c) = Some e -> extension (current c') = e).
Proof.
  unfold collectCounters, collectCountersWith. cbn [fst].
  destruct (collectLoop evaluateCurrent (extensions c) (c, out))
    as [[c1 out1]|] eqn:E; [|discriminate].
  intros H. injection H as <- <- _.
  assert (G : forall exts c0 out0 c1 out1,
    collectLoop evaluateCurrent exts (c0, out0) = Ok (c1, out1) ->
    c1 = withCurrent c0 (current c1) /\
    (exists more, out1 = out0 ++ more /\ length more <= length exts) /\
    (forall e, last exts = Some e -> extension (current c1) = e)).
  { clear. induction exts as [|e exts IH]; intros c0 out0 c1 out1 H;
      cbn [collectLoop] in H.
    - injection H as <- <-. split; [destruct c0; reflexivity|].
      split; [exists []; rewrite app_nil_r; auto | discriminate].
    - destruct (collectOne evaluateCurrent e (c0, out0)) as [[c2 out2]|] eqn:E1;
        [|discriminate].
      assert (H2 : c2 = withCurrent c0 (current c2) /\
                   extension (current c2) = e /\
                   exists m, out2 = out0 ++ m /\ length m <= 1).
      { unfold collectOne in E1. cbn [current withCurrent scanner] in E1.
        destruct (testFileScanner_init _) as [[sc [msg|]]|]; try discriminate.
        - injection E1 as <- <-. split; [reflexivity|]. split; [reflexivity|].
          eexists. split; [reflexivity | simpl; lia].
        - cbn [evaluateCurrent] in E1. injection E1 as <- <-.
          cbn [stats withCurrent withStats]. rewrite app_nil_r.
          split; [reflexivity|]. split; [reflexivity|].
          exists []. rewrite app_nil_r. simpl. split; [reflexivity | lia]. }
      destruct H2 as (Hc2 & He2 & m & -> & Hm).
      assert (Hlast1 : forall x, last (e :: exts) = Some x ->
                                 extension (current c1) = x).
      { destruct exts as [|e' exts'].
        - cbn [collectLoop] in H. injection H as <- _.
          intros x Hx. simpl in Hx. injection Hx as <-. exact He2.
        - intros x Hx. apply IH in H as (_ & _ & Hlast). apply Hlast.
          exact Hx. }
      apply IH in H as (Hc1 & (more & -> & Hmore) & _).
      split; [rewrite Hc1 at 1; rewrite Hc2; reflexivity|].
      split; [|exact Hlast1].
      exists (m ++ more). rewrite app_assoc. split; [reflexivity|].
      rewrite length_app. simpl. lia. }
  exact (G _ _ _ _ _ E).
Qed.

End CollectorFrame.

(** ** What the three patterns accept *)

Lemma memArgRE_accepts (s : gostring) :
  MatchString memArgRE_pattern s = true <->
  exists pre b post,
    s = pre ++ "(" :: b ++ ")" :: post /\
    b <> [] /\ forallb is_word b = true.
Proof.
  rewrite MatchString_true. split.
  - intros (pre & w & post & -> & Hw).
    destruct Hw as (d & ? & -> & _ & ? & ? & -> & -> & b & ? & -> & [Hne Hb]
                    & ? & sfx & -> & -> & _).
    exists (pre ++ d), b, (sfx ++ post). split; [list_eq | auto].
  - intros (pre & b & post & -> & Hne & Hb).
    exists pre, ("(" :: b ++ [")"]), post. split; [list_eq|].
    exists [], ("(" :: b ++ [")"]). split; [reflexivity|].
    split; [left; reflexivity|].
    exists ["("], (b ++ [")"]). split; [reflexivity|]. split; [reflexivity|].
    exists b, [")"]. split; [reflexivity|]. split; [split; assumption|].
    exists [")"], []. split; [reflexivity|]. split; [reflexivity|].
    left. reflexivity.
Qed.

(** [memArgRE] is not anchored and its displacement and index parts are
    optional, so it matches a string exactly when the string holds,
    anywhere, a non-empty run of word bytes in parentheses. *)
Theorem memArgRE_matches_iff (s : gostring) :
  MatchString memArgRE_pattern s = true <->
  exists pre b post,
    s = pre ++ "(" :: b ++ ")" :: post /\
    b <> [] /\ forallb is_word b = true.
Proof.
  rewrite MatchString_true. split.
  - intros (pre & w & post & -> & Hw).
    destruct Hw as (d & ? & -> & _ & ? & ? & -> & -> & b & ? & -> & [Hne Hb]
                    & ? & sfx & -> & -> & _).
    exists (pre ++ d), b, (sfx ++ post). split; [list_eq | auto].
  - intros (pre & b & post & -> & Hne & Hb).
    exists pre, ("(" :: b ++ [")"]), post. split; [list_eq|].
    exists [], ("(" :: b ++ [")"]). split; [reflexivity|].
    split; [left; reflexivity|].
    exists ["("], (b ++ [")"]). split; [reflexivity|]. split; [reflexivity|].
    exists b, [")"]. split; [reflexivity|]. split; [split; assumption|].
    exists [")"], []. split; [reflexivity|]. split; [reflexivity|].
    left. reflexivity.
Qed.

(** [vmemArgRE] is the stricter of the two operand patterns: every string
    it matches, [memArgRE] matches too. *)
Theorem vmemArgRE_implies_memArgRE (s : gostring) :
  MatchString vmemArgRE_pattern s = true ->
  MatchString memArgRE_pattern s = true.
Proof.
  rewrite MatchString_true. intros (pre & w & post & -> & Hw).
  apply memArgRE_accepts.
  destruct Hw as (w1 & ? & -> & _ & ? & ? & -> & -> & w5 & ? & -> & [Hne5 Hw5]
                  & ? & ? & -> & -> & ? & ? & -> & -> & ? & ? & -> & (v & -> & _)
                  & w13 & ? & -> & _ & ? & ? & -> & -> & ? & ?
                  & -> & (sc & -> & _) & ->).
  exists (pre ++ w1), w5, ("(" :: v :: w13 ++ "*" :: sc :: ")" :: post).
  split; [list_eq | auto].
Qed.

Lemma consumes_dispRE (s : gostring) (caps : list gostring)
    (s' : gostring) (caps' : list gostring) :
  consumes dispRE s caps s' caps' ->
  caps' = caps /\ exists d, s = d ++ s' /\ lang dispRE d.
Proof.
  intros [[-> ->]|(s1 & c1 & H1 & w & -> & Hne & Hw & ->)].
  - split; [reflexivity|]. exists []. split; [reflexivity | left; reflexivity].
  - destruct H1 as [[<- ->]|[-> ->]].
    + split; [reflexivity|]. exists w. split; [reflexivity|]. right.
      exists [], w. split; [reflexivity|]. split; [left; reflexivity|].
      split; assumption.
    + split; [reflexivity|]. exists ("-" :: w). split; [reflexivity|]. right.
      exists ["-"], w. split; [reflexivity|]. split; [right; reflexivity|].
      split; assumption.
Qed.

(** What [FindStringSubmatch] of [vmemArgRE] returns: the matched text is
    an optional displacement, a base register in parentheses and an index
    in parentheses, and the one group holds the single letter X, Y or Z
    that the index register starts with. *)
Theorem vmemArgRE_captures_register_file (s : gostring) (m : list gostring) :
  FindStringSubmatch vmemArgRE_pattern s = Some m ->
  exists pre d b v ds sc post,
    s = pre ++ (d ++ "(" :: b ++ ")" :: "(" :: v :: ds ++ ["*"; sc; ")"]) ++ post /\
    m = [d ++ "(" :: b ++ ")" :: "(" :: v :: ds ++ ["*"; sc; ")"]; [v]] /\
    isXYZ v = true /\
    ds <> [] /\ forallb is_digit ds = true /\ isScale sc = true /\
    b <> [] /\ forallb is_word b = true /\ lang dispRE d.
Proof.
  intros H. apply FindStringSubmatch_leftmost in H as (pre & t & -> & Hm & _).
  apply matchAt_sound in Hm as (t' & caps' & Hc & ->).
  change vmemArgRE_pattern with
    (RSeq dispRE
      (RSeq (RChar "(") (RSeq (RPlus true CWord) (RSeq (RChar ")")
      (RSeq (RChar "(") (RSeq (RGroup 1 (RClass (COneOf ["X"; "Y"; "Z"])))
      (RSeq (RPlus true CDigit) (RSeq (RChar "*")
      (RSeq (RClass (COneOf ["1"; "2"; "4"; "8"])) (RChar ")")))))))))) in Hc.
  cbn [consumes ngroups Nat.max replicate] in Hc.
  destruct Hc as (s1 & c1 & Hd & s2 & c2 & [-> ->] & s3 & c3
                  & (b & -> & Hbne & Hb & ->) & s4 & c4 & [-> ->]
                  & s5 & c5 & [-> ->] & s6 & c6
                  & (c7 & (v & -> & Hv & ->) & ->) & s7 & c8
                  & (ds & -> & Hdne & Hds & ->) & s8 & c9 & [-> ->]
                  & s9 & c10 & (sc & -> & Hsc & ->) & -> & ->).
  apply consumes_dispRE in Hd as (-> & d & -> & Hlang).
  exists pre, d, b, v, ds, sc, t'.
  assert (E : d ++ "(" :: b ++ ")" :: "(" :: v :: ds ++ "*" :: sc :: ")" :: t' =
              (d ++ "(" :: b ++ ")" :: "(" :: v :: ds ++ ["*"; sc; ")"]) ++ t')
    by list_eq.
  split; [rewrite E; reflexivity|].
  split; [|auto 10].
  rewrite (consumed_prefix _ _ _ E).
  rewrite (consumed_prefix (v :: ds ++ "*" :: sc :: ")" :: t') [v]) by reflexivity.
  reflexivity.
Qed.

Section AcceptedLines.
Context {lib : GoLib}.

(** In a state with no recorded error, [scan] returns true for the
    current line exactly when the line holds, anywhere, a tab, an opcode
    text, a space, an operand text, then a space, two slashes, a space and
    at least one hexadecimal digit, with no newline in the two texts.
    Either text may be empty, and bytes before the tab or after the digits
    do not prevent the match. *)
Theorem scan_accepts_iff (s : testFileScanner) (l : gostring)
    (rest : list gostring) :
  scannerReady s -> err s = None -> lines s = l :: rest ->
  (exists s', scan s = Ok (true, s')) <->
  (exists pre opc operands hex post,
     l = pre ++ (tab :: opc ++ space :: operands ++ str " // " ++ hex) ++ post /\
     (newline ∉ opc) /\ (newline ∉ operands) /\
     hex <> [] /\ forallb (in_class hexdigit) hex = true).
Proof.
  intros (Hre & _ & _) He Hl. unfold scan. rewrite He, Hl, Hre. split.
  - intros (s' & H).
    destruct (decide (l = sentinel)); [discriminate|].
    destruct (FindStringSubmatch lineRE_pattern l) as [m|] eqn:Em;
      [|discriminate].
    apply FindStringSubmatch_leftmost in Em as (pre & t & -> & Hm & _).
    apply matchAt_lineRE in Hm
      as (opc & operands & hex & post & -> & _ & Hopc & Ho & Hne & Hh & _).
    exists pre, opc, operands, hex, post. split; [reflexivity|].
    split; [exact (forallb_excludes _ newline _ eq_refl Hopc)|].
    split; [exact (forallb_excludes _ newline _ eq_refl Ho)|]. auto.
  - intros (pre & opc & operands & hex & post & -> & Hopc & Ho & Hne & Hh).
    assert (Hs : is_Some (FindStringSubmatch lineRE_pattern
      (pre ++ (tab :: opc ++ space :: operands ++ str " // " ++ hex) ++ post))).
    { apply FindStringSubmatch_is_Some. eexists pre, _, post.
      split; [reflexivity|].
      apply lang_lineRE; auto using forallb_notNL. }
    destruct Hs as (m & Em).
    destruct (decide (_ = sentinel)) as [E|_].
    { rewrite E, sentinel_no_match in Em. discriminate. }
    rewrite Em.
    apply FindStringSubmatch_leftmost in Em as (p & t & _ & Hm & _).
    apply matchAt_lineRE in Hm as (? & ? & ? & ? & _ & -> & _). eauto.
Qed.

End AcceptedLines.

(** ** The further theorems at concrete inputs *)

Lemma exampleScanner_ready (ls : list gostring) :
  Forall (fun l => newline ∉ l) ls -> @scannerReady exampleGo (exampleScanner ls).
Proof. intros H. split; [reflexivity|]. split; [exact H | exact I]. Qed.

Lemma scan_false_is_final_witness :
  @scan exampleGo (exampleScanner []) =
    Ok (false, withErr (exampleScanner [])
         (str "testdata/avx512f.s: unexpected EOF (expected RET instruction)")) /\
  @scan exampleGo (withErr (exampleScanner [])
         (str "testdata/avx512f.s: unexpected EOF (expected RET instruction)")) =
    Ok (false, withErr (exampleScanner [])
         (str "testdata/avx512f.s: unexpected EOF (expected RET instruction)")).
Proof.
  assert (H : @scan exampleGo (exampleScanner []) =
    Ok (false, withErr (exampleScanner [])
         (str "testdata/avx512f.s: unexpected EOF (expected RET instruction)")))
    by reflexivity.
  split; [exact H|]. exact (@scan_false_is_final exampleGo _ _ H).
Defined.

Lemma scan_frame_witness :
  exists s',
    @scan exampleGo (exampleScanner [exampleLine; sentinel]) = Ok (true, s') /\
    filename s' = str "testdata/avx512f.s" /\
    lineRE s' = Some lineRE_pattern /\
    err s' = None /\
    exists l, [exampleLine; sentinel] = l :: lines s'.
Proof.
  destruct (@scan exampleGo (exampleScanner [exampleLine; sentinel]))
    as [[[|] s']|] eqn:E; try (vm_compute in E; discriminate).
  exists s'. split; [reflexivity|].
  destruct (@scan_frame exampleGo _ _ _ E) as (Hf & Hr & Ht & _).
  destruct (Ht eq_refl) as (_ & He & Hl).
  split; [exact Hf|]. split; [exact Hr|]. split; [exact He | exact Hl].
Defined.

Lemma drain_until_stop_witness :
  exists s',
    @drain exampleGo 5 (exampleScanner [exampleLine; sentinel; []]) =
      Ok ([exampleRecord], s') /\
    lines s' = [sentinel; []] /\ err s' = None.
Proof.
  assert (Hr : @scannerReady exampleGo (exampleScanner [exampleLine; sentinel; []])).
  { apply exampleScanner_ready. repeat constructor; compute_done. }
  assert (Hd : Forall2 (fun l r => @decodeLine exampleGo l = Some r)
                 [exampleLine] [exampleRecord]).
  { constructor; [vm_compute; reflexivity | constructor]. }
  assert (Hs : @decodeLine exampleGo sentinel = None) by (vm_compute; reflexivity).
  destruct (@drain_until_stop exampleGo _ [exampleLine] sentinel [[]]
              [exampleRecord] 5 Hr eq_refl eq_refl Hd Hs ltac:(simpl; lia))
    as (s' & H1 & H2 & _ & H3).
  exists s'. split; [exact H1|]. split; [exact H2|].
  rewrite H3. reflexivity.
Defined.

Lemma drain_without_sentinel_witness :
  exists s',
    @drain exampleGo 5 (exampleScanner [exampleLine]) =
      Ok ([exampleRecord], s') /\
    lines s' = [] /\
    err s' = Some (str "testdata/avx512f.s: unexpected EOF (expected RET instruction)").
Proof.
  assert (Hr : @scannerReady exampleGo (exampleScanner [exampleLine])).
  { apply exampleScanner_ready. repeat constructor; compute_done. }
  assert (Hd : Forall2 (fun l r => @decodeLine exampleGo l = Some r)
                 (lines (exampleScanner [exampleLine])) [exampleRecord]).
  { constructor; [vm_compute; reflexivity | constructor]. }
  exact (@drain_without_sentinel exampleGo _ [exampleRecord] 5 Hr eq_refl Hd
           ltac:(simpl; lia)).
Defined.

Lemma drain_ends_witness :
  exists recs s',
    @drain exampleGo 3 (exampleScanner [exampleLine; sentinel]) = Ok (recs, s') /\
    @scan exampleGo s' = Ok (false, s') /\
    lines s' = drop (length recs) [exampleLine; sentinel].
Proof.
  assert (Hr : @scannerReady exampleGo (exampleScanner [exampleLine; sentinel])).
  { apply exampleScanner_ready. repeat constructor; compute_done. }
  destruct (@drain_ends exampleGo _ 3 Hr ltac:(simpl; lia))
    as (recs & s' & H1 & H2 & H3 & _).
  exists recs, s'. auto.
Defined.

Lemma readExtensions_marks_entries_witness :
  exists c',
    @collector_readExtensions exampleOS (fst (@collector_init exampleCollector)) =
      (c', None) /\
    @available c' (str "avx512cd") = true /\
    @available c' (str "README") = true /\
    @available c' (str "missing") = false.
Proof.
  destruct (@readExtensions_marks_entries exampleOS exampleCollector
              [str "README"; str "avx512cd.s"; str "avx512f.s"] eq_refl)
    as (c' & H & Hav & Hfix & Hstray & _).
  exists c'. split; [exact H|]. split; [|split].
  - apply Hfix. right. left.
  - apply Hstray; [left | reflexivity].
  - destruct (available c' (str "missing")) eqn:E; [|reflexivity].
    apply Hav in E as (f & Hf & Ef). exfalso.
    repeat (apply elem_of_cons in Hf as [->|Hf]; [vm_compute in Ef; discriminate|]).
    inversion Hf.
Defined.

Lemma validateFlags_reports_first_unavailable_witness :
  @validateFlags exampleGo exampleCollector =
    Some (str "unavailable extension: " ++ @Quote exampleGo (str "missing")).
Proof.
  apply (@validateFlags_reports_first_unavailable exampleGo exampleCollector
           [] (str "missing") [str "avx512f"]).
  - reflexivity.
  - constructor.
  - vm_compute. reflexivity.
Defined.

Lemma configuration_is_valid_iff_witness :
  @ReadDir exampleOS (testDir freshCollector) =
    inl [str "README"; str "avx512cd.s"; str "avx512f.s"] /\
  extensions freshCollector = [] /\
  @validateFlags exampleGo
    (fst (@collector_parseFlags exampleGo exampleOS exampleFlags
       (fst (@collector_readExtensions exampleOS
          (fst (@collector_init freshCollector)))))) = None.
Proof.
  split; [reflexivity|]. split; [reflexivity|].
  apply (proj2 (@configuration_is_valid_iff exampleGo exampleOS freshCollector
           [str "README"; str "avx512cd.s"; str "avx512f.s"] exampleFlags
           eq_refl eq_refl)).
  split; [|repeat split; discriminate].
  change (map (@TrimSpace exampleGo) (Split "," (flagExtensions exampleFlags)))
    with [str "avx512f"; str "avx512cd"].
  repeat constructor.
  - exists (str "avx512f.s"). split; [right; right; left | reflexivity].
  - exists (str "avx512cd.s"). split; [right; left | reflexivity].
Defined.

Lemma main_after_visitWorkDir_witness :
  exists st7 c',
    @runSteps (take 7 (@steps exampleGo exampleSteps)) (freshCollector, []) =
      Finished st7 /\
    @main exampleGo exampleSteps (freshCollector, []) =
      Finished (c', [str "skip avx512cd: can't scan test file: " ++
                     str "open testdata/avx512cd.s: no such file or directory"]).
Proof.
  destruct (@runSteps (take 7 (@steps exampleGo exampleSteps)) (freshCollector, []))
    as [st7| |] eqn:E; try (vm_compute in E; discriminate).
  destruct (@main_after_visitWorkDir exampleGo exampleSteps _ _ E) as [Hm _].
  destruct (@collectCounters exampleGo st7) as [[[c' out'] r]|] eqn:Ec.
  - exists st7, c'. split; [reflexivity|]. rewrite Hm. f_equal. f_equal.
    assert (E2 : @main exampleGo exampleSteps (freshCollector, []) =
                 Finished (c', out')) by exact Hm.
    vm_compute in E2. injection E2 as _ <-. reflexivity.
  - exfalso. vm_compute in Hm. discriminate.
Defined.

Lemma collectCounters_frame_witness :
  exists c' out',
    @collectCounters exampleGo (exampleCollector, []) = Ok ((c', out'), None) /\
    c' = withCurrent exampleCollector (current c') /\
    extension (current c') = str "avx512f".
Proof.
  destruct (@collectCounters exampleGo (exampleCollector, []))
    as [[[c' out'] r]|] eqn:E; [|vm_compute in E; discriminate].
  assert (r = None) as -> by (vm_compute in E; congruence).
  exists c', out'. split; [reflexivity|].
  destruct (@collectCounters_frame exampleGo _ _ _ _ _ E) as (H1 & _ & H3).
  split; [exact H1 | apply H3; reflexivity].
Defined.

Lemma vmemArgRE_implies_memArgRE_witness :
  MatchString vmemArgRE_pattern (str "-8(AX)(Z31*4)") = true /\
  MatchString memArgRE_pattern (str "-8(AX)(Z31*4)") = true.
Proof.
  assert (H : MatchString vmemArgRE_pattern (str "-8(AX)(Z31*4)") = true)
    by (vm_compute; reflexivity).
  split; [exact H | exact (vmemArgRE_implies_memArgRE _ H)].
Defined.

Lemma vmemArgRE_captures_register_file_witness :
  FindStringSubmatch vmemArgRE_pattern (str "VGATHER -8(AX)(Z31*4), K1") =
    Some [str "-8(AX)(Z31*4)"; str "Z"] /\
  exists v, isXYZ v = true /\ [str "Z"] = [[v]].
Proof.
  assert (H : FindStringSubmatch vmemArgRE_pattern (str "VGATHER -8(AX)(Z31*4), K1") =
              Some [str "-8(AX)(Z31*4)"; str "Z"]) by (vm_compute; reflexivity).
  split; [exact H|].
  destruct (vmemArgRE_captures_register_file _ _ H)
    as (pre & d & b & v & ds & sc & post & _ & Em & Hv & _).
  exists v. split; [exact Hv|]. congruence.
Defined.

Lemma scan_accepts_iff_witness :
  exists s', @scan exampleGo (exampleScanner [exampleLine; sentinel]) = Ok (true, s').
Proof.
  assert (Hr : @scannerReady exampleGo (exampleScanner [exampleLine; sentinel])).
  { apply exampleScanner_ready. repeat constructor; compute_done. }
  apply (proj2 (@scan_accepts_iff exampleGo _ exampleLine [sentinel] Hr
                  eq_refl eq_refl)).
  exists [], (str "VGATHERDPD"), (str "7(AX)(X4*8), K1, X2"),
         (str "62f2fd09925407"), [].
  split; [reflexivity|]. split; [compute_done|]. split; [compute_done|].
  split; [discriminate | reflexivity].
Defined.

(** ** Where the program departs from its specification *)

(** C5 fails on the code: on the fixture line of VAESDEC, which lists two
    encodings, [scan] succeeds and decodes the opcode and the operands,
    and the text it records stops after the first encoding: it is not the
    whole line that the [text] field is documented to hold. *)
Theorem scan_text_is_not_the_whole_line :
  exists s',
    @scan exampleGo (exampleScanner [vaesdecLine; sentinel]) = Ok (true, s') /\
    op (line s') = str "VAESDEC" /\
    args (line s') = [str "X24"; str "X7"; str "X11"] /\
    text (line s') = tab :: str "VAESDEC X24, X7, X11 // 62124508ded8" /\
    text (line s') <> vaesdecLine /\
    lines s' = [sentinel].
Proof.
  eexists. split; [vm_compute; reflexivity|]. cbn [line op args text lines].
  repeat split; discriminate.
Qed.

(** C7 fails on the code: with two selected extensions that
    [validateFlags] accepts, the first having an empty fixture, [init]
    panics on the first one, so [collectCounters] does not return: no
    line is logged and the second extension is never reached. *)
Theorem collectCounters_aborts_on_empty_fixture :
  @validateFlags exampleGo emptyFixtureCollector = None /\
  @ReadFile exampleGo (@fixturePath exampleGo emptyFixtureCollector (str "empty")) =
    inl [] /\
  @collectCounters exampleGo (emptyFixtureCollector, []) = Panic.
Proof. repeat split; vm_compute; reflexivity. Qed.

(** C9 fails on the code: a loop count of 2^63, which [validateFlags]
    accepts, is written as the bound of a loop whose counter is an [int];
    the bound is larger than every [int] of a 64-bit platform. *)
Theorem emitted_loop_bound_exceeds_int :
  @validateFlags exampleGo bigLoopCollector = None /\
  loopBound (mainFileContents bigLoopCollector) = Some 9223372036854775808%N /\
  (maxInt < 9223372036854775808)%N.
Proof. repeat split; vm_compute; reflexivity. Qed.

(** C8 as stated fails: the test directory holds an entry README and no
    README.s; after [init] and [readExtensions] the extension README is
    requested, its fixture cannot be read, and [validateFlags] returns
    nil. *)
Lemma stray_entry_passes_validation :
  @ReadDir exampleOS (testDir strayCollector) =
    inl [str "README"; str "avx512cd.s"; str "avx512f.s"] /\
  extensions strayCollector = [str "README"] /\
  @ReadFile exampleGo (@fixturePath exampleGo strayCollector (str "README")) =
    inr (str "open testdata/README.s: no such file or directory") /\
  @validateFlags exampleGo
    (fst (@collector_readExtensions exampleOS
            (fst (@collector_init strayCollector)))) = None.
Proof. repeat split; vm_compute; reflexivity. Qed.

Section ValidationOverDirectory.
Context {lib : GoLib} {os : OSSteps} {sys : GoOS}.

(** C8, as the code has it: [validateFlags] returns an error exactly when
    a requested extension is not marked in [availableExt], or no
    extension is requested, or the perf tool name is empty, or one of
    iformSpanSize, loopCount, perfRounds is zero, and returns nil
    otherwise.  After [init] and [readExtensions] over a readable test
    directory, an extension is marked exactly when it is the name of a
    directory entry with a trailing [.s] removed.  In [main] the error is
    fatal: the run ends there, whatever the probing steps would do. *)
Theorem validateFlags_fails_iff :
  (forall c : collector,
     is_Some (validateFlags c) <->
     Exists (fun e => available c e = false) (extensions c) \/
     extensions c = [] \/ perfTool c = [] \/
     iformSpanSize c = 0%N \/ loopCount c = 0%N \/ perfRounds c = 0%N) /\
  (forall c : collector,
     validateFlags c = None <->
     ~ (Exists (fun e => available c e = false) (extensions c) \/
        extensions c = [] \/ perfTool c = [] \/
        iformSpanSize c = 0%N \/ loopCount c = 0%N \/ perfRounds c = 0%N)) /\
  (forall (c : collector) (names : list gostring),
     ReadDir (testDir c) = inl names ->
     let c' := fst (collector_readExtensions (fst (collector_init c))) in
     extensions c' = extensions c /\
     (forall e, available c' e = false <->
                ~ exists f, f ∈ names /\ TrimSuffix f (str ".s") = e) /\
     (is_Some (validateFlags c') <->
      Exists (fun e => ~ exists f, f ∈ names /\ TrimSuffix f (str ".s") = e)
             (extensions c) \/
      extensions c = [] \/ perfTool c = [] \/
      iformSpanSize c = 0%N \/ loopCount c = 0%N \/ perfRounds c = 0%N)) /\
  (forall (st st' : runState) (e : gostring),
     runSteps (take 4 steps) st = Finished st' ->
     validateFlags (fst st') = Some e ->
     main st = Fatal (str "validate command-line args: " ++ e) st').
Proof.
  destruct (@validateFlags_decision lib os) as (Hsome & Hnone & Hmain).
  split; [exact Hsome|]. split; [exact Hnone|]. split; [|exact Hmain].
  intros c names Hd c'.
  destruct (readExtensions_available c names Hd)
    as (c1 & E1 & Hav & _ & _ & _ & He & _).
  assert (Ec : c' = c1) by (unfold c'; rewrite E1; reflexivity).
  assert (Hun : forall e, available c' e = false <->
                ~ exists f, f ∈ names /\ TrimSuffix f (str ".s") = e).
  { intros e. rewrite Ec, <- Hav.
    destruct (available c1 e); split; try congruence; intros H;
      exfalso; apply H; reflexivity. }
  split; [rewrite Ec; exact He|]. split; [exact Hun|].
  rewrite Hsome.
  assert (Hf : extensions c' = extensions c /\ perfTool c' = perfTool c /\
               iformSpanSize c' = iformSpanSize c /\
               loopCount c' = loopCount c /\ perfRounds c' = perfRounds c).
  { unfold c', collector_readExtensions. cbn [collector_init fst testDir].
    rewrite Hd. repeat split. }
  destruct Hf as (F1 & F2 & F3 & F4 & F5). rewrite F1, F2, F3, F4, F5.
  assert (Hex : Exists (fun e => available c' e = false) (extensions c) <->
                Exists (fun e => ~ exists f, f ∈ names /\
                                   TrimSuffix f (str ".s") = e) (extensions c)).
  { split; intros H; (eapply Exists_impl; [exact H|]); intros e He';
      apply Hun; exact He'. }
  rewrite Hex. reflexivity.
Qed.

End ValidationOverDirectory.

Lemma validateFlags_fails_iff_witness :
  @validateFlags exampleGo exampleCollector =
    Some (str "unavailable extension: " ++ @Quote exampleGo (str "missing")) /\
  @main exampleGo idleSteps (exampleCollector, []) =
    Fatal (str "validate command-line args: unavailable extension: " ++
           @Quote exampleGo (str "missing"))
          (fst (@collector_init exampleCollector), []).
Proof.
  assert (Hv : @validateFlags exampleGo (fst (@collector_init exampleCollector)) =
    Some (str "unavailable extension: " ++ @Quote exampleGo (str "missing")))
    by reflexivity.
  split; [vm_compute; reflexivity|].
  exact (proj2 (proj2 (proj2 (@validateFlags_fails_iff exampleGo idleSteps exampleOS)))
           (exampleCollector, []) (fst (@collector_init exampleCollector), [])
           _ eq_refl Hv).
Defined.

Section WrittenDriver.
Context {lib : GoLib}.

(** What [prepareWorkDir] writes: the file is [main.go] joined to the work
    directory, and its bytes are a fixed text up to the loop header, the
    loop count in decimal, and a fixed rest.  The number read back after
    [for i := 0; i < ] is the configured loop count, whatever it is, so
    the written text determines the loop count; the buffer it declares
    has 1024 bytes. *)
Theorem prepareWorkDir_output_driver (c : collector) :
  prepareWorkDir_output c =
    (Join (workDir c) (str "main.go"),
     driverHead ++ fmt_d (loopCount c) ++ driverTail) /\
  loopBound (snd (prepareWorkDir_output c)) = Some (loopCount c) /\
  bufferSize (snd (prepareWorkDir_output c)) = Some 1024%N /\
  (forall c2, snd (prepareWorkDir_output c) = snd (prepareWorkDir_output c2) ->
              loopCount c = loopCount c2).
Proof.
  assert (E : forall c0, snd (prepareWorkDir_output c0) =
                         driverHead ++ fmt_d (loopCount c0) ++ driverTail)
    by reflexivity.
  split; [reflexivity|]. split; [rewrite E; apply loopBound_driver|].
  split; [reflexivity|].
  intros c2 H. rewrite !E in H.
  apply (f_equal loopBound) in H. rewrite !loopBound_driver in H.
  congruence.
Qed.

End WrittenDriver.
